(** * json_tool: the edit/undo core

    A shallow embedding of the document buffer ([core/document.py]), the
    change-notification channel ([observers/observer.py]), the validation
    listener ([observers/validator_observer.py]), the reversible commands
    ([commands/command.py], [commands/insert_command.py],
    [commands/delete_command.py]) and the history manager
    ([commands/command_manager.py]), followed by the properties of the
    specification that concern them.

    Python objects are mutable; the embedding threads one [World] through
    every call.  A call either returns or raises, and in both cases hands
    back the world as it stands at that point, so that "raised and changed
    nothing" is a statement to prove and not a convention. *)

From Stdlib Require Import ZArith List String Ascii Bool Lia DecimalString.
Import ListNotations.
Local Open Scope Z_scope.
Local Open Scope list_scope.

(** ** Python values *)

(** A [str] is a sequence of Unicode code points. *)
Definition char := N.
Definition Text := list char.

(** Readings of [time.time()]. *)
Definition Time := Z.

(** Code points of an ASCII literal. *)
Definition text_of_string (s : string) : Text :=
  List.map N_of_ascii (list_ascii_of_string s).

(** [str(n)] for an [int]. *)
Definition string_of_Z (z : Z) : string :=
  NilZero.string_of_int (Z.to_int z).

(** [len(l)] *)
Definition len {A} (l : list A) : Z := Z.of_nat (List.length l).

(** Slice bounds: a negative bound counts from the end, and every bound is
    clamped to [0, len]. *)
Definition clamp_index (n i : Z) : nat :=
  Z.to_nat (if i <? 0 then Z.max 0 (n + i) else Z.min i n).

(** [l[:j]] *)
Definition slice_to {A} (l : list A) (j : Z) : list A :=
  firstn (clamp_index (len l) j) l.

(** [l[i:]] *)
Definition slice_from {A} (l : list A) (i : Z) : list A :=
  skipn (clamp_index (len l) i) l.

(** [l[i:j]] *)
Definition slice {A} (l : list A) (i j : Z) : list A :=
  skipn (clamp_index (len l) i) (firstn (clamp_index (len l) j) l).

(** [l[i]]: [None] stands for [IndexError]. *)
Definition index {A} (l : list A) (i : Z) : option A :=
  if (i <? - len l) || (len l <=? i) then None
  else nth_error l (Z.to_nat (if i <? 0 then len l + i else i)).

(** The position [l[i]] designates, for writing an object back in place. *)
Definition index_nat {A} (l : list A) (i : Z) : nat :=
  Z.to_nat (if i <? 0 then len l + i else i).

Fixpoint list_set {A} (l : list A) (n : nat) (x : A) : list A :=
  match l, n with
  | [], _ => []
  | _ :: rest, O => x :: rest
  | y :: rest, S n' => y :: list_set rest n' x
  end.

(** [str.isspace] on one code point, as [str.strip()] uses it. *)
Definition is_space (c : char) : bool :=
  (((9 <=? c) && (c <=? 13)) || ((28 <=? c) && (c <=? 32))
   || (c =? 133) || (c =? 160) || (c =? 5760)
   || ((8192 <=? c) && (c <=? 8202))
   || (c =? 8232) || (c =? 8233) || (c =? 8239) || (c =? 8287)
   || (c =? 12288))%N.

Fixpoint lstrip (s : Text) : Text :=
  match s with
  | c :: rest => if is_space c then lstrip rest else s
  | [] => []
  end.

Definition rstrip (s : Text) : Text := rev (lstrip (rev s)).

(** [s.strip()] *)
Definition strip (s : Text) : Text := rstrip (lstrip s).

(** Truth value of a [str]. *)
Definition truthy {A} (l : list A) : bool :=
  match l with [] => false | _ => true end.

(** ** Exceptions *)

Inductive Exn : Type :=
| RuntimeError (msg : string)
| ValueError (msg : string)
| IndexError (msg : string)
| ListenerError (msg : string).

(** [str(e)] *)
Definition str (e : Exn) : string :=
  match e with
  | RuntimeError m | ValueError m | IndexError m | ListenerError m => m
  end.

Definition is_ValueError (e : Exn) : bool :=
  match e with ValueError _ => true | _ => false end.

(** ** Data model *)

(** One entry of [ValidationResult.errors]: a dict with the keys [line],
    [column], [message], [position], of which only [message] is always there. *)
Record ErrorEntry : Type := mkErrorEntry {
  err_line : option Z;
  err_column : option Z;
  err_message : string;
  err_position : option Z
}.

(** [class ValidationResult]; the dict stored on the document has the same
    four keys. *)
Record ValidationResult : Type := mkValidationResult {
  is_valid : bool;
  message : string;
  errors : list ErrorEntry;
  timestamp : Time
}.

(** The [data] dict of an event. *)
Inductive EventData : Type :=
| FullReplace (old_content new_content : Text)
| InsertData (position : Z) (text : Text) (length : Z)
| DeleteData (start end_ : Z) (deleted_text : Text) (length : Z)
| LoadedData (filepath : string) (size : Z)
| SavedData (filepath : option string) (size : Z)
| EmptyData.

(** Private fields of a [ValidatorObserver]. *)
Record ValidatorState : Type := mkValidatorState {
  auto_validate : bool;
  last_result : option ValidationResult;
  validation_count : Z
}.

(** The subclasses of [Observer].  A [ValidatorObserver] is modelled in
    full.  [ForeignObserver] stands for any other subclass whose [update]
    leaves the subject alone: it returns, or raises an [Exception] with the
    message [fails event_type data content] gives.  [StatusObserver] and
    [AutosaveObserver] are of this kind (both only read the document, and
    their own bookkeeping is not part of the model). *)
Inductive ObserverKind : Type :=
| Validator (v : ValidatorState)
| ForeignObserver (fails : string -> EventData -> Text -> option string).

(** [class Observer] *)
Record Observer : Type := mkObserver {
  name : string;
  enabled : bool;
  kind : ObserverKind
}.

(** [class Document(Subject)] *)
Record Document : Type := mkDocument {
  filepath : option string;
  content : Text;
  modified : bool;
  created_time : Time;
  modified_time : Time;
  read_only : bool;
  edit_count : Z;
  last_validation_result : option ValidationResult;
  observers : list Observer
}.

(** [class Command] and its subclasses.  [description] and [executed] are
    the fields of the base class.  A command is held by value: one command
    object is taken to occur once in a history or in a composite, as when
    [Editor.insert_text] and [Editor.delete_text] make a new command for
    each edit.  The [_document] of every command is the document of the
    world it runs in. *)
#[warnings="-register-all"]
Inductive Command : Type :=
| InsertCommand (description : string) (executed : bool)
    (position : Z) (text : Text)
| DeleteCommand (description : string) (executed : bool)
    (start_position end_position : Z) (deleted_text : Text)
| CompositeCommand (description : string) (executed : bool)
    (commands : list Command).

(** [class CommandManager] *)
Record CommandManager : Type := mkCommandManager {
  history : list Command;
  current_index : Z;
  max_history : Z
}.

(** One call of [observer.update(subject, event_type, data)]: the observer
    as it is when called, and the two arguments. *)
Record Delivery : Type := mkDelivery {
  to : Observer;
  event_type : string;
  data : EventData
}.

(** The objects an [Editor] owns, together with what the calls leave behind
    outside them: [clock_reads] counts the readings of [time.time()] taken so
    far, [deliveries] records every call of an observer's [update], in order,
    and [stdout] the lines printed. *)
Record World : Type := mkWorld {
  document : Document;
  command_manager : CommandManager;
  clock_reads : nat;
  deliveries : list Delivery;
  stdout : list string
}.

Definition with_document (d : Document) (w : World) : World :=
  mkWorld d (command_manager w) (clock_reads w) (deliveries w) (stdout w).

Definition with_command_manager (m : CommandManager) (w : World) : World :=
  mkWorld (document w) m (clock_reads w) (deliveries w) (stdout w).

Definition with_observers (os : list Observer) (d : Document) : Document :=
  mkDocument (filepath d) (content d) (modified d) (created_time d)
    (modified_time d) (read_only d) (edit_count d)
    (last_validation_result d) os.

Definition with_validation_result (r : option ValidationResult)
    (d : Document) : Document :=
  mkDocument (filepath d) (content d) (modified d) (created_time d)
    (modified_time d) (read_only d) (edit_count d) r (observers d).

(** ** External collaborators *)

(** What [json.loads] does with a text. *)
Inductive LoadsOutcome : Type :=
| Parsed
| JSONDecodeError (msg : string) (pos lineno colno : Z)
| OtherException (str_e : string).

(** The system clock and the JSON parser of the standard library:
    [time_time n] is the [n]-th reading of [time.time()]. *)
Class Collaborators : Type := {
  time_time : nat -> Time;
  json_loads : Text -> LoadsOutcome
}.

(** ** Calls that return or raise *)

Inductive Result (A : Type) : Type :=
| Returned (a : A)
| Raised (e : Exn).
Arguments Returned {A} a.
Arguments Raised {A} e.

Definition Py (A : Type) : Type := World -> Result A * World.

Definition ret {A} (a : A) : Py A := fun w => (Returned a, w).

Definition raise {A} (e : Exn) : Py A := fun w => (Raised e, w).

Definition bind {A B} (m : Py A) (k : A -> Py B) : Py B :=
  fun w =>
    match m w with
    | (Returned a, w') => k a w'
    | (Raised e, w') => (Raised e, w')
    end.

(** [try: body  except Exception as e: handler] *)
Definition try_except {A} (body : Py A) (handler : Exn -> Py A) : Py A :=
  fun w =>
    match body w with
    | (Returned a, w') => (Returned a, w')
    | (Raised e, w') => handler e w'
    end.

Notation "x <- c1 ;; c2" := (bind c1 (fun x => c2))
  (at level 61, c1 at next level, right associativity).
Notation "' pat <- c1 ;; c2" := (bind c1 (fun x => match x with pat => c2 end))
  (at level 61, pat pattern, c1 at next level, right associativity).
Notation "c1 ;; c2" := (bind c1 (fun _ => c2))
  (at level 61, right associativity).

Definition get_document : Py Document := fun w => (Returned (document w), w).

Definition put_document (d : Document) : Py unit :=
  fun w => (Returned tt, with_document d w).

Definition get_manager : Py CommandManager :=
  fun w => (Returned (command_manager w), w).

Definition put_manager (m : CommandManager) : Py unit :=
  fun w => (Returned tt, with_command_manager m w).

(** [print(line)] *)
Definition print (line : string) : Py unit :=
  fun w => (Returned tt,
            mkWorld (document w) (command_manager w) (clock_reads w)
              (deliveries w) (stdout w ++ [line])).

Definition record_delivery (d : Delivery) : Py unit :=
  fun w => (Returned tt,
            mkWorld (document w) (command_manager w) (clock_reads w)
              (deliveries w ++ [d]) (stdout w)).

(** [time.time()] *)
Definition now `{Collaborators} : Py Time :=
  fun w => (Returned (time_time (clock_reads w)),
            mkWorld (document w) (command_manager w) (S (clock_reads w))
              (deliveries w) (stdout w)).

(** ** observers/validator_observer.py *)

Module ValidatorObserver.
Section Methods.
Context `{Collaborators}.

(** [ValidationResult(is_valid, message, errors)]: the constructor reads the
    clock. *)
Definition new_result (is_valid : bool) (message : string)
    (errors : list ErrorEntry) : Py ValidationResult :=
  t <- now;;
  ret (mkValidationResult is_valid message errors t).

(** The [try] block of [validate]: every exception of [json.loads] is
    turned into a result. *)
Definition parse_result (content : Text) : Py ValidationResult :=
  match json_loads content with
  | Parsed =>
      new_result true "JSON синтаксис коректний" []
  | JSONDecodeError msg pos lineno colno =>
      new_result false
        ("Помилка JSON на рядку " ++ string_of_Z lineno
           ++ ", позиція " ++ string_of_Z colno)%string
        [mkErrorEntry (Some lineno) (Some colno) msg (Some pos)]
  | OtherException str_e =>
      new_result false ("Помилка валідації: " ++ str_e)%string
        [mkErrorEntry None None str_e None]
  end.

(** [validate(self, document)]; the second component is [self] afterwards.
    [document.set_validation_result] is the assignment of the field. *)
Definition validate (self : ValidatorState)
    : Py (ValidationResult * ValidatorState) :=
  d <- get_document;;
  let content := strip (content d) in
  result <- (if negb (truthy content)
             then new_result true "Документ порожній" []
             else parse_result content);;
  let self' := mkValidatorState (auto_validate self) (Some result)
                 (validation_count self + 1) in
  d <- get_document;;
  put_document (with_validation_result (Some result) d);;
  ret (result, self').

(** [update(self, document, event_type, data)] *)
Definition update (self : ValidatorState) (event_type : string)
    : Py ValidatorState :=
  if String.eqb event_type "content_changed" && auto_validate self
  then ' (_, self') <- validate self;; ret self'
  else ret self.

End Methods.
End ValidatorObserver.

(** ** observers/observer.py *)

Module Observer.
Section Methods.
Context `{Collaborators}.

(** [observer.update(subject, event_type, data)], dispatched on the class
    of the observer; the result is the observer afterwards. *)
Definition update (self : Observer) (event_type : string) (data : EventData)
    : Py Observer :=
  record_delivery (mkDelivery self event_type data);;
  match kind self with
  | Validator v =>
      v' <- ValidatorObserver.update v event_type;;
      ret (mkObserver (name self) (enabled self) (Validator v'))
  | ForeignObserver fails =>
      d <- get_document;;
      match fails event_type data (content d) with
      | Some msg => raise (ListenerError msg)
      | None => ret self
      end
  end.

End Methods.
End Observer.

Module Subject.
Section Methods.
Context `{Collaborators}.

(** The loop of [notify] over [self._observers]; the result is the list of
    observers afterwards. *)
Fixpoint deliver (observers : list Observer) (event_type : string)
    (data : EventData) : Py (list Observer) :=
  match observers with
  | [] => ret []
  | observer :: rest =>
      observer' <-
        (if enabled observer
         then try_except
                (Observer.update observer event_type data)
                (fun e =>
                   print ("Помилка в observer " ++ name observer ++ ": "
                            ++ str e)%string;;
                   ret observer)
         else ret observer);;
      rest' <- deliver rest event_type data;;
      ret (observer' :: rest')
  end.

(** [notify(self, event_type, data)] *)
Definition notify (event_type : string) (data : EventData) : Py unit :=
  d <- get_document;;
  observers' <- deliver (observers d) event_type data;;
  d' <- get_document;;
  put_document (with_observers observers' d').

(** [get_observers_count(self)] *)
Definition get_observers_count (d : Document) : Z := len (observers d).

End Methods.
End Subject.

(** ** core/document.py *)

Module Document.
Section Methods.
Context `{Collaborators}.

Definition read_only_message : string :=
  "Документ доступний тільки для читання".

(** The message of [delete]: its literal in the source has two replacement
    characters (U+FFFD) where that of [set_content] and [insert] has one
    letter. *)
Definition delete_read_only_message : string :=
  "Документ дост��пний тільки для читання".

Definition invalid_position (position : Z) : string :=
  ("Невалідна позиція: " ++ string_of_Z position)%string.

Definition invalid_range (start end_ : Z) : string :=
  ("Невалідний діапазон: " ++ string_of_Z start ++ "-"
     ++ string_of_Z end_)%string.

(** [Document(filepath, content)] *)
Definition new (filepath : option string) (content : Text) : Py Document :=
  t <- now;;
  ret (mkDocument filepath content false t t false 0 None []).

(** [get_content(self)] *)
Definition get_content (d : Document) : Text := content d.

(** [is_new] *)
Definition is_new (d : Document) : bool :=
  match filepath d with None => true | Some _ => false end.

(** [size] *)
Definition size (d : Document) : Z := len (content d).

(** [set_content(self, content, notify)] *)
Definition set_content (content_ : Text) (notify : bool) : Py unit :=
  d <- get_document;;
  if read_only d then raise (RuntimeError read_only_message)
  else
    let old_content := content d in
    t <- now;;
    put_document
      (mkDocument (filepath d) content_ true (created_time d) t
         (read_only d) (edit_count d + 1) (last_validation_result d)
         (observers d));;
    if notify
    then Subject.notify "content_changed" (FullReplace old_content content_)
    else ret tt.

(** [insert(self, position, text, notify)] *)
Definition insert (position : Z) (text : Text) (notify : bool) : Py unit :=
  d <- get_document;;
  if read_only d then raise (RuntimeError read_only_message)
  else if (position <? 0) || (position >? len (content d))
  then raise (ValueError (invalid_position position))
  else
    t <- now;;
    put_document
      (mkDocument (filepath d)
         (slice_to (content d) position ++ text
            ++ slice_from (content d) position)
         true (created_time d) t (read_only d) (edit_count d + 1)
         (last_validation_result d) (observers d));;
    if notify
    then Subject.notify "content_changed"
           (InsertData position text (len text))
    else ret tt.

(** [delete(self, start, end, notify)] *)
Definition delete (start end_ : Z) (notify : bool) : Py unit :=
  d <- get_document;;
  if read_only d then raise (RuntimeError delete_read_only_message)
  else if (start <? 0) || (end_ >? len (content d)) || (start >? end_)
  then raise (ValueError (invalid_range start end_))
  else
    let deleted_text := slice (content d) start end_ in
    t <- now;;
    put_document
      (mkDocument (filepath d)
         (slice_to (content d) start ++ slice_from (content d) end_)
         true (created_time d) t (read_only d) (edit_count d + 1)
         (last_validation_result d) (observers d));;
    if notify
    then Subject.notify "content_changed"
           (DeleteData start end_ deleted_text (len deleted_text))
    else ret tt.

(** [get_text(self, start, end)] *)
Definition get_text (start end_ : Z) : Py Text :=
  d <- get_document;;
  if (start <? 0) || (end_ >? len (content d)) || (start >? end_)
  then raise (ValueError (invalid_range start end_))
  else ret (slice (content d) start end_).

(** [load_from_file(self, filepath, content)] *)
Definition load_from_file (filepath_ : string) (content_ : Text) : Py unit :=
  d <- get_document;;
  t <- now;;
  put_document
    (mkDocument (Some filepath_) content_ false (created_time d) t
       (read_only d) (edit_count d) (last_validation_result d)
       (observers d));;
  Subject.notify "loaded" (LoadedData filepath_ (len content_)).

(** [mark_as_saved(self, filepath)]; [if filepath:] holds for a path that
    is neither [None] nor empty. *)
Definition mark_as_saved (filepath_ : option string) : Py unit :=
  d <- get_document;;
  let path :=
    match filepath_ with
    | Some (String c s) => Some (String c s)
    | _ => filepath d
    end in
  put_document
    (mkDocument path (content d) false (created_time d) (modified_time d)
       (read_only d) (edit_count d) (last_validation_result d)
       (observers d));;
  Subject.notify "saved" (SavedData path (len (content d))).

(** The setter of [read_only]. *)
Definition set_read_only (value : bool) : Py unit :=
  d <- get_document;;
  put_document
    (mkDocument (filepath d) (content d) (modified d) (created_time d)
       (modified_time d) value (edit_count d) (last_validation_result d)
       (observers d)).

(** [set_validation_result(self, result)] *)
Definition set_validation_result (result : ValidationResult) : Py unit :=
  d <- get_document;;
  put_document (with_validation_result (Some result) d).

(** [clear(self, notify)] *)
Definition clear (notify : bool) : Py unit := set_content [] notify.

(** [reset(self)] *)
Definition reset : Py unit :=
  d <- get_document;;
  if negb (is_new d)
  then raise (RuntimeError "Не можна скинути документ з файлом")
  else
    put_document
      (mkDocument (filepath d) [] false (created_time d) (modified_time d)
         (read_only d) 0 None (observers d));;
    Subject.notify "reset" EmptyData.

End Methods.
End Document.

(** ** commands/insert_command.py *)

Module InsertCommand.
Section Methods.
Context `{Collaborators}.

(** [InsertCommand(document, position, text)] *)
Definition new (position : Z) (text : Text) : Command :=
  InsertCommand
    ("Вставка " ++ string_of_Z (len text) ++ " символів на позицію "
       ++ string_of_Z position)%string
    false position text.

(** [execute(self)]: the flag returned, and [self] afterwards. *)
Definition execute (description : string) (executed : bool) (position : Z)
    (text : Text) : Py (bool * Command) :=
  try_except
    (Document.insert position text true;;
     ret (true, InsertCommand description true position text))
    (fun e =>
       print ("Помилка виконання InsertCommand: " ++ str e)%string;;
       ret (false, InsertCommand description executed position text)).

(** [undo(self)] *)
Definition undo (description : string) (executed : bool) (position : Z)
    (text : Text) : Py (bool * Command) :=
  try_except
    (let end_position := position + len text in
     Document.delete position end_position true;;
     ret (true, InsertCommand description false position text))
    (fun e =>
       print ("Помилка скасування InsertCommand: " ++ str e)%string;;
       ret (false, InsertCommand description executed position text)).

End Methods.
End InsertCommand.

(** ** commands/delete_command.py *)

Module DeleteCommand.
Section Methods.
Context `{Collaborators}.

(** [DeleteCommand(document, start_position, end_position)] *)
Definition new (start_position end_position : Z) : Command :=
  let length := end_position - start_position in
  DeleteCommand
    ("Видалення " ++ string_of_Z length ++ " символів з позиції "
       ++ string_of_Z start_position)%string
    false start_position end_position [].

(** [execute(self)].  [self._deleted_text] is assigned as soon as
    [get_text] has returned, so it keeps the new value when [delete] then
    raises. *)
Definition execute (description : string) (executed : bool)
    (start_position end_position : Z) (deleted_text : Text)
    : Py (bool * Command) :=
  let failed (captured : Text) (e : Exn) : Py (bool * Command) :=
    print ("Помилка виконання DeleteCommand: " ++ str e)%string;;
    ret (false, DeleteCommand description executed start_position
                  end_position captured) in
  try_except
    (captured <- Document.get_text start_position end_position;;
     try_except
       (Document.delete start_position end_position true;;
        ret (true, DeleteCommand description true start_position
                     end_position captured))
       (failed captured))
    (failed deleted_text).

(** [undo(self)] *)
Definition undo (description : string) (executed : bool)
    (start_position end_position : Z) (deleted_text : Text)
    : Py (bool * Command) :=
  try_except
    (Document.insert start_position deleted_text true;;
     ret (true, DeleteCommand description false start_position end_position
                  deleted_text))
    (fun e =>
       print ("Помилка скасування DeleteCommand: " ++ str e)%string;;
       ret (false, DeleteCommand description executed start_position
                     end_position deleted_text)).

End Methods.
End DeleteCommand.

(** ** commands/command.py *)

Module Command.
Section Methods.
Context `{Collaborators}.

Definition description (c : Command) : string :=
  match c with
  | InsertCommand d _ _ _ | DeleteCommand d _ _ _ _ | CompositeCommand d _ _ =>
      d
  end.

Definition executed (c : Command) : bool :=
  match c with
  | InsertCommand _ x _ _ | DeleteCommand _ x _ _ _ | CompositeCommand _ x _ =>
      x
  end.

(** [command.execute()], dispatched on the class.  For a
    [CompositeCommand] the inner loop runs the children in order and breaks
    at the first that fails. *)
Fixpoint execute (c : Command) : Py (bool * Command) :=
  match c with
  | InsertCommand d x position text =>
      InsertCommand.execute d x position text
  | DeleteCommand d x start_position end_position deleted_text =>
      DeleteCommand.execute d x start_position end_position deleted_text
  | CompositeCommand d x commands =>
      ' (success, commands') <-
        (fix loop (cs : list Command) : Py (bool * list Command) :=
           match cs with
           | [] => ret (true, [])
           | command :: rest =>
               ' (ok, command') <- execute command;;
               if ok
               then ' (success, rest') <- loop rest;;
                    ret (success, command' :: rest')
               else ret (false, command' :: rest)
           end) commands;;
      ret (success, CompositeCommand d (if success then true else x) commands')
  end.

(** [command.undo()].  The loop of a [CompositeCommand] visits
    [reversed(self._commands)]: the children after the head are undone
    first, and the head only when none of them failed. *)
Fixpoint undo (c : Command) : Py (bool * Command) :=
  match c with
  | InsertCommand d x position text =>
      InsertCommand.undo d x position text
  | DeleteCommand d x start_position end_position deleted_text =>
      DeleteCommand.undo d x start_position end_position deleted_text
  | CompositeCommand d x commands =>
      ' (success, commands') <-
        (fix loop (cs : list Command) : Py (bool * list Command) :=
           match cs with
           | [] => ret (true, [])
           | command :: rest =>
               ' (success, rest') <- loop rest;;
               if success
               then ' (ok, command') <- undo command;;
                    ret (ok, command' :: rest')
               else ret (false, command :: rest')
           end) commands;;
      ret (success,
           CompositeCommand d (if success then false else x) commands')
  end.

End Methods.
End Command.

(** [CompositeCommand(description)] and [add_command(self, command)] *)
Module CompositeCommand.

Definition new (description : string) : Command :=
  CompositeCommand description false [].

Definition add_command (self command : Command) : Command :=
  match self with
  | CompositeCommand d x commands => CompositeCommand d x (commands ++ [command])
  | _ => self
  end.

End CompositeCommand.

(** ** utils/config.py *)

Module Config.
Definition MAX_UNDO_HISTORY : Z := 100.
End Config.

(** ** commands/command_manager.py *)

Module CommandManager.
Section Methods.
Context `{Collaborators}.

(** [CommandManager(max_history)]: [max_history or Config.MAX_UNDO_HISTORY]
    takes the default for [None] and for [0]. *)
Definition new (max_history : option Z) : CommandManager :=
  mkCommandManager [] (-1)
    match max_history with
    | None => Config.MAX_UNDO_HISTORY
    | Some n => if n =? 0 then Config.MAX_UNDO_HISTORY else n
    end.

(** [can_undo(self)] *)
Definition can_undo (m : CommandManager) : bool := current_index m >=? 0.

(** [can_redo(self)] *)
Definition can_redo (m : CommandManager) : bool :=
  current_index m <? len (history m) - 1.

(** [execute(self, command)] *)
Definition execute (command : Command) : Py bool :=
  ' (ok, command') <- Command.execute command;;
  if negb ok then ret false
  else
    m <- get_manager;;
    let history1 :=
      if current_index m <? len (history m) - 1
      then slice_to (history m) (current_index m + 1)
      else history m in
    let history2 := history1 ++ [command'] in
    let index2 := current_index m + 1 in
    (if len history2 >? max_history m
     then
       let removed_count := len history2 - max_history m in
       put_manager
         (mkCommandManager (slice_from history2 removed_count)
            (index2 - removed_count) (max_history m))
     else put_manager (mkCommandManager history2 index2 (max_history m)));;
    ret true.

(** [undo(self)]; the command is changed in place, in the history. *)
Definition undo : Py bool :=
  m <- get_manager;;
  if negb (can_undo m) then ret false
  else
    match index (history m) (current_index m) with
    | None => raise (IndexError "list index out of range")
    | Some command =>
        ' (ok, command') <- Command.undo command;;
        let history' :=
          list_set (history m) (index_nat (history m) (current_index m))
            command' in
        if ok
        then put_manager
               (mkCommandManager history' (current_index m - 1)
                  (max_history m));;
             ret true
        else put_manager
               (mkCommandManager history' (current_index m) (max_history m));;
             ret false
    end.

(** [redo(self)] *)
Definition redo : Py bool :=
  m <- get_manager;;
  if negb (can_redo m) then ret false
  else
    match index (history m) (current_index m + 1) with
    | None => raise (IndexError "list index out of range")
    | Some command =>
        ' (ok, command') <- Command.execute command;;
        let history' :=
          list_set (history m) (index_nat (history m) (current_index m + 1))
            command' in
        if ok
        then put_manager
               (mkCommandManager history' (current_index m + 1)
                  (max_history m));;
             ret true
        else put_manager
               (mkCommandManager history' (current_index m) (max_history m));;
             ret false
    end.

(** [clear_history(self)] *)
Definition clear_history : Py unit :=
  m <- get_manager;;
  put_manager (mkCommandManager [] (-1) (max_history m)).

(** [get_undo_description(self)] *)
Definition get_undo_description : Py (option string) :=
  m <- get_manager;;
  if can_undo m
  then match index (history m) (current_index m) with
       | None => raise (IndexError "list index out of range")
       | Some command => ret (Some (Command.description command))
       end
  else ret None.

(** [get_redo_description(self)] *)
Definition get_redo_description : Py (option string) :=
  m <- get_manager;;
  if can_redo m
  then match index (history m) (current_index m + 1) with
       | None => raise (IndexError "list index out of range")
       | Some command => ret (Some (Command.description command))
       end
  else ret None.

End Methods.

(** The dict [get_history_info] returns. *)
Record HistoryInfo : Type := mkHistoryInfo {
  total_commands : Z;
  info_current_index : Z;
  info_can_undo : bool;
  info_can_redo : bool;
  undo_count : Z;
  redo_count : Z;
  info_max_history : Z
}.

(** [get_history_info(self)] *)
Definition get_history_info (m : CommandManager) : HistoryInfo :=
  mkHistoryInfo (len (history m)) (current_index m) (can_undo m) (can_redo m)
    (current_index m + 1) (len (history m) - current_index m - 1)
    (max_history m).

End CommandManager.

(** ** core/editor.py *)

(** The editing calls of [class Editor]; the editor's document and command
    manager are those of the world. *)
Module Editor.
Section Methods.
Context `{Collaborators}.

(** [insert_text(self, position, text)] *)
Definition insert_text (position : Z) (text : Text) : Py bool :=
  CommandManager.execute (InsertCommand.new position text).

(** [delete_text(self, start, end)] *)
Definition delete_text (start end_ : Z) : Py bool :=
  CommandManager.execute (DeleteCommand.new start end_).

(** [replace_text(self, start, end, new_text)] *)
Definition replace_text (start end_ : Z) (new_text : Text) : Py bool :=
  deleted <- delete_text start end_;;
  if negb deleted then ret false
  else insert_text start new_text.

(** [set_content(self, content)] *)
Definition set_content (content : Text) : Py unit :=
  Document.set_content content true.

(** [get_content(self)] *)
Definition get_content : Py Text :=
  d <- get_document;; ret (Document.get_content d).

(** [undo(self)] and [redo(self)] *)
Definition undo : Py bool := CommandManager.undo.
Definition redo : Py bool := CommandManager.redo.

End Methods.
End Editor.

(** ** observers/status_observer.py *)

(** [data.get(key, default) if data else default], for the keys that
    [StatusObserver.update] reads.  Only the data of an insert and of a
    delete have [operation] and [length]; those of a load and of a save
    have [filepath] and [size], and the path of a save may be [None], which
    an f-string prints as [None]. *)
Module EventDict.

Definition get_operation (data : EventData) : string :=
  match data with
  | InsertData _ _ _ => "insert"
  | DeleteData _ _ _ _ => "delete"
  | _ => "зміна"
  end.

Definition get_length (data : EventData) : Z :=
  match data with
  | InsertData _ _ length => length
  | DeleteData _ _ _ length => length
  | _ => 0
  end.

Definition get_filepath (data : EventData) : string :=
  match data with
  | LoadedData filepath _ => filepath
  | SavedData (Some filepath) _ => filepath
  | SavedData None _ => "None"
  | _ => "файл"
  end.

Definition get_size (data : EventData) : Z :=
  match data with
  | LoadedData _ size => size
  | SavedData _ size => size
  | _ => 0
  end.

End EventDict.

Module StatusObserver.

(** An entry of [_event_history]. *)
Record Event : Type := mkEvent {
  event_type : string;
  timestamp : Time;
  message : string;
  data : EventData
}.

(** The fields of a [StatusObserver]. *)
Record t : Type := mk {
  status_message : string;
  last_event : option string;
  last_event_time : option Time;
  event_history : list Event;
  max_history : Z
}.

(** [StatusObserver(name)] *)
Definition new : t := mk "Готовий" None None [] 20.

(** The message [update] builds for an event. *)
Definition message_for (event_type : string) (data : EventData) : string :=
  if String.eqb event_type "content_changed" then
    let operation := EventDict.get_operation data in
    if String.eqb operation "insert" then
      ("Вставлено " ++ string_of_Z (EventDict.get_length data)
         ++ " символів")%string
    else if String.eqb operation "delete" then
      ("Видалено " ++ string_of_Z (EventDict.get_length data)
         ++ " символів")%string
    else "Документ змінено"
  else if String.eqb event_type "saved" then
    ("Збережено: " ++ EventDict.get_filepath data)%string
  else if String.eqb event_type "loaded" then
    ("Завантажено: " ++ EventDict.get_filepath data ++ " ("
       ++ string_of_Z (EventDict.get_size data) ++ " символів)")%string
  else if String.eqb event_type "reset" then "Документ скинуто"
  else ("Подія: " ++ event_type)%string.

(** [_add_to_history(self, event)] *)
Definition _add_to_history (self : t) (event : Event) : t :=
  let history := event_history self ++ [event] in
  mk (status_message self) (last_event self) (last_event_time self)
    (if len history >? max_history self
     then slice_from history (- max_history self)
     else history)
    (max_history self).

Section Methods.
Context `{Collaborators}.

(** [update(self, document, event_type, data)] *)
Definition update (self : t) (event_type : string) (data : EventData)
    : Py t :=
  current_time <- now;;
  let message := message_for event_type data in
  let self1 :=
    mk message (Some event_type) (Some current_time) (event_history self)
      (max_history self) in
  ret (_add_to_history self1 (mkEvent event_type current_time message data)).

End Methods.

(** [get_recent_events(self, count)] *)
Definition get_recent_events (self : t) (count : Z) : list Event :=
  if truthy (event_history self)
  then slice_from (event_history self) (- count)
  else [].

(** [clear_history(self)] *)
Definition clear_history (self : t) : t :=
  mk (status_message self) (last_event self) (last_event_time self) []
    (max_history self).

End StatusObserver.

(** ** flyweight/token.py *)

Module Token.

(** [class Token]; [__eq__] compares the two fields. *)
Record t : Type := mk {
  value : string;
  token_type : string
}.

(** [dict.get(key, default)] on a dict of strings. *)
Fixpoint dict_get (d : list (string * string)) (key default : string)
    : string :=
  match d with
  | [] => default
  | (k, v) :: rest => if String.eqb k key then v else dict_get rest key default
  end.

Definition type_to_color_key : list (string * string) :=
  [("symbol", "brace"); ("string", "string"); ("number", "number");
   ("boolean", "boolean"); ("null", "null"); ("key", "key")]%string.

(** [get_color(self, color_scheme)] *)
Definition get_color (self : t) (color_scheme : list (string * string))
    : string :=
  let color_key := dict_get type_to_color_key (token_type self) "brace" in
  dict_get color_scheme color_key "#000000".

End Token.

(** [Config.SYNTAX_COLORS] *)
Module SyntaxColors.
Definition SYNTAX_COLORS : list (string * string) :=
  [("brace", "#383A42"); ("string", "#E45649"); ("number", "#50A14F");
   ("boolean", "#986801"); ("null", "#A626A4"); ("key", "#A626A4")]%string.
End SyntaxColors.

(** ** flyweight/token_factory.py *)

Module TokenFactory.

Definition Key : Type := (string * string)%type.

Definition key_eqb (a b : Key) : bool :=
  String.eqb (fst a) (fst b) && String.eqb (snd a) (snd b).

(** The fields of a [TokenFactory]: the dict [_tokens], in the order of
    insertion, and the two counters of [_statistics]. *)
Record t : Type := mk {
  tokens : list (Key * Token.t);
  created : Z;
  reused : Z
}.

(** [self._tokens[key]] and [key in self._tokens] *)
Fixpoint lookup (d : list (Key * Token.t)) (key : Key) : option Token.t :=
  match d with
  | [] => None
  | (k, token) :: rest => if key_eqb k key then Some token else lookup rest key
  end.

(** [get_token(self, value, token_type)]: the token, and the factory
    afterwards. *)
Definition get_token (self : t) (value token_type : string)
    : Token.t * t :=
  let key := (value, token_type) in
  match lookup (tokens self) key with
  | None =>
      let token := Token.mk value token_type in
      (token, mk (tokens self ++ [(key, token)]) (created self + 1)
                (reused self))
  | Some token => (token, mk (tokens self) (created self) (reused self + 1))
  end.

Definition common_tokens : list Key :=
  [("{", "symbol"); ("}", "symbol"); ("[", "symbol"); ("]", "symbol");
   (":", "symbol"); (",", "symbol"); (String (Ascii.ascii_of_nat 34) EmptyString, "symbol");
   ("true", "boolean"); ("false", "boolean"); ("null", "null")]%string.

(** [_initialize_common_tokens(self)] *)
Definition _initialize_common_tokens (self : t) : t :=
  fold_left (fun f key => snd (get_token f (fst key) (snd key)))
    common_tokens self.

(** [TokenFactory()] *)
Definition new : t := _initialize_common_tokens (mk [] 0 0).

(** [get_token_count(self)] *)
Definition get_token_count (self : t) : Z := len (tokens self).

(** [clear_cache(self)] *)
Definition clear_cache (self : t) : t :=
  _initialize_common_tokens (mk [] 0 0).

(** [get_all_tokens(self)] *)
Definition get_all_tokens (self : t) : list Token.t :=
  List.map snd (tokens self).

End TokenFactory.

(** ** Sequences of calls *)

(** A call on the document or on the history, as [core/editor.py] and the
    user interface make them. *)
Inductive Call : Type :=
| CallSetContent (content : Text) (notify : bool)
| CallInsert (position : Z) (text : Text) (notify : bool)
| CallDelete (start end_ : Z) (notify : bool)
| CallGetText (start end_ : Z)
| CallLoadFromFile (filepath : string) (content : Text)
| CallMarkAsSaved (filepath : option string)
| CallSetReadOnly (value : bool)
| CallClear (notify : bool)
| CallReset
| CallExecute (command : Command)
| CallUndo
| CallRedo
| CallClearHistory.

Definition is_reset (c : Call) : bool :=
  match c with CallReset => true | _ => false end.

(** The calls that edit the content. *)
Definition edits_content (c : Call) : bool :=
  match c with
  | CallSetContent _ _ | CallInsert _ _ _ | CallDelete _ _ _ | CallClear _ =>
      true
  | _ => false
  end.

Section Calls.
Context `{Collaborators}.

(** One call, its value dropped. *)
Definition perform (c : Call) : Py unit :=
  match c with
  | CallSetContent content notify => Document.set_content content notify
  | CallInsert position text notify => Document.insert position text notify
  | CallDelete start end_ notify => Document.delete start end_ notify
  | CallGetText start end_ => _ <- Document.get_text start end_;; ret tt
  | CallLoadFromFile filepath content =>
      Document.load_from_file filepath content
  | CallMarkAsSaved filepath => Document.mark_as_saved filepath
  | CallSetReadOnly value => Document.set_read_only value
  | CallClear notify => Document.clear notify
  | CallReset => Document.reset
  | CallExecute command => _ <- CommandManager.execute command;; ret tt
  | CallUndo => _ <- CommandManager.undo;; ret tt
  | CallRedo => _ <- CommandManager.redo;; ret tt
  | CallClearHistory => CommandManager.clear_history
  end.

(** Calls one after the other, by a caller that goes on after an
    exception. *)
Fixpoint perform_all (cs : list Call) (w : World) : World :=
  match cs with
  | [] => w
  | c :: rest => perform_all rest (snd (perform c w))
  end.

End Calls.

(** ** Vocabulary of the properties *)

Set Implicit Arguments.

(** The positions [insert] accepts, and the ranges [delete] and [get_text]
    accept, on the content [c]. *)
Definition valid_position (c : Text) (position : Z) : Prop :=
  0 <= position <= len c.

Definition valid_range (c : Text) (start end_ : Z) : Prop :=
  0 <= start <= end_ /\ end_ <= len c.

(** What a notification leaves alone: the command manager and every field
    of the document but the stored validation result and the observers. *)
Record untouched (w w' : World) : Prop := mkUntouched {
  same_filepath : filepath (document w') = filepath (document w);
  same_content : content (document w') = content (document w);
  same_modified : modified (document w') = modified (document w);
  same_created_time : created_time (document w') = created_time (document w);
  same_modified_time :
    modified_time (document w') = modified_time (document w);
  same_read_only : read_only (document w') = read_only (document w);
  same_edit_count : edit_count (document w') = edit_count (document w);
  same_manager : command_manager w' = command_manager w
}.

(** The calls of [update] a notification makes: one for every enabled
    observer, in the order of the list. *)
Definition deliveries_of (observers : list Observer) (event_type : string)
    (data : EventData) : list Delivery :=
  List.map (fun o => mkDelivery o event_type data)
    (List.filter enabled observers).

(** What a successful edit of the content does to the world: the new
    content, the counter one higher, the [modified] flag set, the calls of
    [update] made, and the read-only flag, the path and the command manager
    as they were. *)
Record edited (w w' : World) (new_content : Text) (calls : list Delivery)
    : Prop := mkEdited {
  ed_content : content (document w') = new_content;
  ed_edit_count : edit_count (document w') = edit_count (document w) + 1;
  ed_modified : modified (document w') = true;
  ed_read_only : read_only (document w') = read_only (document w);
  ed_filepath : filepath (document w') = filepath (document w);
  ed_manager : command_manager w' = command_manager w;
  ed_deliveries : deliveries w' = deliveries w ++ calls
}.

(** What a failed command does: it prints, and nothing else. *)
Record only_printed (w w' : World) : Prop := mkOnlyPrinted {
  op_document : document w' = document w;
  op_manager : command_manager w' = command_manager w;
  op_clock_reads : clock_reads w' = clock_reads w;
  op_deliveries : deliveries w' = deliveries w
}.

(** What any run of commands respects: the read-only flag, the path and
    the command manager stay, and the edit counter does not go down. *)
Record advanced (w w' : World) : Prop := mkAdvanced {
  adv_read_only : read_only (document w') = read_only (document w);
  adv_filepath : filepath (document w') = filepath (document w);
  adv_manager : command_manager w' = command_manager w;
  adv_edit_count : edit_count (document w) <= edit_count (document w')
}.

Unset Implicit Arguments.

Section Loops.
Context `{Collaborators}.

(** The two loops of [CompositeCommand], by name. *)
Fixpoint execute_all (cs : list Command) : Py (bool * list Command) :=
  match cs with
  | [] => ret (true, [])
  | command :: rest =>
      ' (ok, command') <- Command.execute command;;
      if ok
      then ' (success, rest') <- execute_all rest;;
           ret (success, command' :: rest')
      else ret (false, command' :: rest)
  end.

Fixpoint undo_all (cs : list Command) : Py (bool * list Command) :=
  match cs with
  | [] => ret (true, [])
  | command :: rest =>
      ' (success, rest') <- undo_all rest;;
      if success
      then ' (ok, command') <- Command.undo command;;
           ret (ok, command' :: rest')
      else ret (false, command :: rest')
  end.

End Loops.

Section Inverse.
Context `{Collaborators}.

(** A command whose [undo] takes back its [execute]: after [execute] has
    returned [True], [undo] returns [True] as well and gives the content
    back, from any world with the content and the read-only flag that
    [execute] left. *)
Definition restores (c : Command) : Prop :=
  forall w c' w1,
    Command.execute c w = (Returned (true, c'), w1) ->
    forall w2,
      content (document w2) = content (document w1) ->
      read_only (document w2) = read_only (document w) ->
      exists c'' w3,
        Command.undo c' w2 = (Returned (true, c''), w3)
        /\ content (document w3) = content (document w)
        /\ advanced w2 w3.

End Inverse.

(** The bookkeeping of [CommandManager.execute] once the command has
    returned [True]: cut the redo branch, append, evict the oldest. *)
Definition pushed (m : CommandManager) (command' : Command)
    : CommandManager :=
  let history1 :=
    if current_index m <? len (history m) - 1
    then slice_to (history m) (current_index m + 1)
    else history m in
  let history2 := history1 ++ [command'] in
  let index2 := current_index m + 1 in
  if len history2 >? max_history m
  then mkCommandManager (slice_from history2 (len history2 - max_history m))
         (index2 - (len history2 - max_history m)) (max_history m)
  else mkCommandManager history2 index2 (max_history m).

(** The bookkeeping of [undo] and [redo]: the command at [i] as the call
    left it, and the cursor moved to [i'] . *)
Definition revisited (m : CommandManager) (i : Z) (command' : Command)
    (i' : Z) : CommandManager :=
  mkCommandManager (list_set (history m) (index_nat (history m) i) command')
    i' (max_history m).

(** The invariant of the history: the cursor is [-1] or the index of an
    entry, and the list is no longer than the maximum. *)
Definition history_invariant (m : CommandManager) : Prop :=
  -1 <= current_index m <= len (history m) - 1
  /\ len (history m) <= max_history m.

(** A step that keeps the invariant of the history and the maximum. *)
Definition keeps_history_invariant (w w' : World) : Prop :=
  history_invariant (command_manager w')
  /\ max_history (command_manager w') = max_history (command_manager w).

(** A command whose [execute] gives back what its [undo] took: once
    [execute] and then [undo] have returned [True], a second [execute]
    returns [True] as well and leaves the content that the first one left,
    from any world with the content and the read-only flag that [undo]
    left. *)
Section Redo.
Context `{Collaborators}.


End Redo.

(** The commands that wrap one call of the document. *)
Definition is_simple (c : Command) : bool :=
  match c with
  | CompositeCommand _ _ _ => false
  | _ => true
  end.

(** The number of oldest entries that [execute] evicts when the cursor is
    at [i] and the maximum is [max]. *)
Definition evicted (i max : Z) : Z := Z.max 0 (i + 2 - max).

(** What a validation run says of a text: empty once stripped, or accepted
    by [json.loads]. *)
Definition verdict `{Collaborators} (text : Text) : bool :=
  match strip text with
  | [] => true
  | stripped =>
      match json_loads stripped with
      | Parsed => true
      | _ => false
      end
  end.

(** An observer that validates at every edit: an enabled
    [ValidatorObserver] whose automatic validation is on. *)
Definition listening (o : Observer) : bool :=
  enabled o
  && match kind o with
     | Validator v => auto_validate v
     | ForeignObserver _ => false
     end.

(** The [notify] argument of an edit. *)
Definition notifies (c : Call) : bool :=
  match c with
  | CallSetContent _ notify | CallInsert _ _ notify | CallDelete _ _ notify
  | CallClear notify => notify
  | _ => false
  end.

(** The calls on the history. *)
Definition on_history (c : Call) : bool :=
  match c with
  | CallExecute _ | CallUndo | CallRedo | CallClearHistory => true
  | _ => false
  end.

(** One turn of the loop of [notify]: the call of [update] on an enabled
    observer, with the exception caught and printed. *)
Definition one_delivery `{Collaborators} (observer : Observer)
    (event_type : string) (data : EventData) : Py Observer :=
  if enabled observer
  then try_except
         (Observer.update observer event_type data)
         (fun e =>
            print ("Помилка в observer " ++ name observer ++ ": "
                     ++ str e)%string;;
            ret observer)
  else ret observer.

(** The state a [TokenFactory] is always in: no key is cached twice, every
    cached token has the value and the type of its key, the ten common
    tokens are cached, and [created] counts the cached tokens. *)
Definition cache_invariant (f : TokenFactory.t) : Prop :=
  NoDup (List.map fst (TokenFactory.tokens f))
  /\ Forall (fun entry =>
               fst entry
               = (Token.value (snd entry), Token.token_type (snd entry)))
       (TokenFactory.tokens f)
  /\ incl TokenFactory.common_tokens (List.map fst (TokenFactory.tokens f))
  /\ len (TokenFactory.tokens f) = TokenFactory.created f
  /\ 0 <= TokenFactory.reused f.

(** ** Sample worlds *)

(** Collaborators to run examples with: a clock that advances by one at
    each reading, and a parser that accepts every text (no example below
    attaches a validator). *)
Definition sample_collaborators : Collaborators := {|
  time_time n := Z.of_nat n;
  json_loads _ := Parsed
|}.



(** An observer whose [update] always raises, one that never does, and one
    that is switched off. *)
Definition failing_observer : Observer :=
  mkObserver "failing" true (ForeignObserver (fun _ _ _ => Some "boom"%string)).

Definition quiet_observer : Observer :=
  mkObserver "quiet" true (ForeignObserver (fun _ _ _ => None)).

Definition disabled_observer : Observer :=
  mkObserver "disabled" false
    (ForeignObserver (fun _ _ _ => Some "never called"%string)).

(** A document just created, with the given content, flag and observers. *)
Definition sample_document (content : Text) (read_only : bool)
    (observers : list Observer) : Document :=
  mkDocument None content false 0 0 read_only 0 None observers.

(** An editor just created around such a document, with a history of the
    given maximum. *)
Definition sample_world (content : Text) (read_only : bool)
    (observers : list Observer) (max_history : option Z) : World :=
  mkWorld (sample_document content read_only observers)
    (CommandManager.new max_history) 0 [] [].

(** The content [{}], with the failing observer attached before the quiet
    one. *)
Definition braces_world : World :=
  sample_world (text_of_string "{}") false
    [failing_observer; disabled_observer; quiet_observer] None.

(** A read-only document with the content [abc]. *)
Definition locked_world : World :=
  sample_world (text_of_string "abc") true [quiet_observer] None.

(** A new, empty document once [x] has been inserted. *)
Definition edited_once : World :=
  snd (Document.insert (H := sample_collaborators) 0 (text_of_string "x")
         true (sample_world [] false [] None)).

(** Four commands on an empty document: insert [{}], insert [a] inside,
    delete the first character, insert [b] at the end. *)
Definition command_A : Command := InsertCommand.new 0 (text_of_string "{}").
Definition command_B : Command := InsertCommand.new 1 (text_of_string "a").
Definition command_C : Command := DeleteCommand.new 0 1.
Definition command_D : Command := InsertCommand.new 2 (text_of_string "b").

(** The worlds that executing [A], [B], [C] goes through, for a history of
    the given maximum. *)
Definition after_A (max_history : option Z) : World :=
  snd (CommandManager.execute (H := sample_collaborators) command_A
         (sample_world [] false [] max_history)).

Definition after_B (max_history : option Z) : World :=
  snd (CommandManager.execute (H := sample_collaborators) command_B
         (after_A max_history)).

Definition after_C (max_history : option Z) : World :=
  snd (CommandManager.execute (H := sample_collaborators) command_C
         (after_B max_history)).

(** Then one [undo], and the execution of [D]. *)
Definition after_undo (max_history : option Z) : World :=
  snd (CommandManager.undo (H := sample_collaborators)
         (after_C max_history)).

Definition after_D (max_history : option Z) : World :=
  snd (CommandManager.execute (H := sample_collaborators) command_D
         (after_undo max_history)).

(** What a call returned, or a default when it raised. *)
Definition returned {A} (default : A) (r : Result A * World) : A :=
  match fst r with
  | Returned a => a
  | Raised _ => default
  end.

(** An insert that no content of fewer than nine characters accepts. *)
Definition command_out_of_range : Command :=
  InsertCommand.new 9 (text_of_string "x").

(** A composite of [A] and [B], and one with a failing child between
    them. *)
Definition composite_AB : Command :=
  CompositeCommand "AB" false [command_A; command_B].

Definition composite_failing : Command :=
  CompositeCommand "A?B" false [command_A; command_out_of_range; command_B].

(** [composite_AB] once executed on the empty document. *)
Definition composite_AB_executed : Command :=
  snd (returned (false, composite_AB)
         (Command.execute (H := sample_collaborators) composite_AB
            (sample_world [] false [] None))).


(** A validator as [Editor] attaches it, and the content [{}] with the
    failing observer and the validator attached. *)
Definition validator_observer : Observer :=
  mkObserver "ValidatorObserver" true (Validator (mkValidatorState true None 0)).

Definition validated_world : World :=
  sample_world (text_of_string "{}") false
    [failing_observer; validator_observer] None.






(** The content [{}] in an editor whose history holds two commands, and
    once its first character has been replaced by [[]. *)
Definition small_history_world : World :=
  sample_world (text_of_string "{}") false [] (Some 2).

Definition after_replace : World :=
  snd (Editor.replace_text (H := sample_collaborators) 0 1
         (text_of_string "[") small_history_world).

(** A status observer that has seen one event. *)
Definition status_after_insert : StatusObserver.t :=
  returned StatusObserver.new
    (StatusObserver.update (H := sample_collaborators) StatusObserver.new
       "content_changed" (InsertData 0 (text_of_string "x") 1)
       (sample_world [] false [] None)).


(** * Properties *)

Section Properties.
Context `{Collaborators}.

(** ** Slices within bounds *)

Lemma len_nonneg {A} (l : list A) : 0 <= len l.
Proof. unfold len. lia. Qed.

Lemma len_app {A} (l1 l2 : list A) : len (l1 ++ l2) = len l1 + len l2.
Proof. unfold len. rewrite length_app. lia. Qed.

Lemma clamp_in_range (n i : Z) :
  0 <= i <= n -> clamp_index n i = Z.to_nat i.
Proof.
  intros Hi. unfold clamp_index.
  destruct (Z.ltb_spec i 0); [lia|]. f_equal. lia.
Qed.

Lemma slice_to_in_range {A} (l : list A) (j : Z) :
  0 <= j <= len l -> slice_to l j = firstn (Z.to_nat j) l.
Proof. intros Hj. unfold slice_to. now rewrite clamp_in_range. Qed.

Lemma slice_from_in_range {A} (l : list A) (i : Z) :
  0 <= i <= len l -> slice_from l i = skipn (Z.to_nat i) l.
Proof. intros Hi. unfold slice_from. now rewrite clamp_in_range. Qed.

Lemma slice_in_range {A} (l : list A) (i j : Z) :
  0 <= i <= j -> j <= len l ->
  slice l i j = skipn (Z.to_nat i) (firstn (Z.to_nat j) l).
Proof.
  intros Hi Hj. unfold slice. rewrite !clamp_in_range by lia. reflexivity.
Qed.

Lemma len_firstn_in_range {A} (l : list A) (i : Z) :
  0 <= i <= len l -> len (firstn (Z.to_nat i) l) = i.
Proof. unfold len. intros Hi. rewrite length_firstn. lia. Qed.

Lemma len_skipn_in_range {A} (l : list A) (i : Z) :
  0 <= i <= len l -> len (skipn (Z.to_nat i) l) = len l - i.
Proof. unfold len. intros Hi. rewrite length_skipn. lia. Qed.

(** Taking out [l[i:j]] and putting it back at [i] gives [l] again. *)
Lemma slice_parts {A} (l : list A) (i j : Z) :
  0 <= i <= j -> j <= len l ->
  slice_to l i ++ slice l i j ++ slice_from l j = l.
Proof.
  intros Hi Hj.
  rewrite slice_to_in_range, slice_in_range, slice_from_in_range by lia.
  rewrite <- (firstn_skipn (Z.to_nat j) l) at 4.
  rewrite app_assoc. f_equal.
  rewrite <- (firstn_skipn (Z.to_nat i) (firstn (Z.to_nat j) l)) at 2.
  f_equal. rewrite firstn_firstn. f_equal. lia.
Qed.

(** The text around an inserted piece. *)
Lemma slice_to_inserted {A} (l t : list A) (i : Z) :
  0 <= i <= len l ->
  slice_to (slice_to l i ++ t ++ slice_from l i) i = slice_to l i.
Proof.
  intros Hi.
  assert (Hlen : List.length (firstn (Z.to_nat i) l) = Z.to_nat i).
  { rewrite length_firstn. unfold len in Hi. lia. }
  rewrite (slice_to_in_range l) by lia.
  rewrite slice_to_in_range.
  - rewrite firstn_app, Hlen, Nat.sub_diag, firstn_O, app_nil_r.
    rewrite firstn_firstn. f_equal. lia.
  - rewrite len_app, len_firstn_in_range by lia.
    pose proof (len_nonneg (t ++ slice_from l i)). lia.
Qed.

Lemma slice_from_inserted {A} (l t : list A) (i : Z) :
  0 <= i <= len l ->
  slice_from (slice_to l i ++ t ++ slice_from l i) (i + len t)
  = slice_from l i.
Proof.
  intros Hi.
  assert (Hlen : List.length (firstn (Z.to_nat i) l) = Z.to_nat i).
  { rewrite length_firstn. unfold len in Hi. lia. }
  rewrite (slice_to_in_range l) by lia.
  rewrite slice_from_in_range.
  - rewrite app_assoc.
    rewrite skipn_app.
    replace (Z.to_nat (i + len t))
      with (List.length (firstn (Z.to_nat i) l ++ t))
      by (rewrite length_app, Hlen; unfold len; lia).
    rewrite skipn_all, Nat.sub_diag. reflexivity.
  - pose proof (len_nonneg t).
    rewrite !len_app, len_firstn_in_range by lia.
    pose proof (len_nonneg (slice_from l i)). lia.
Qed.

Lemma len_inserted {A} (l t : list A) (i : Z) :
  0 <= i <= len l ->
  len (slice_to l i ++ t ++ slice_from l i) = len l + len t.
Proof.
  intros Hi.
  rewrite <- (firstn_skipn (Z.to_nat i) l) at 3.
  rewrite slice_to_in_range, slice_from_in_range by lia.
  rewrite !len_app. lia.
Qed.

(** The text around a deleted range. *)
Lemma len_deleted {A} (l : list A) (i j : Z) :
  0 <= i <= j -> j <= len l ->
  len (slice_to l i ++ slice_from l j) = len l - (j - i).
Proof.
  intros Hi Hj.
  rewrite slice_to_in_range, slice_from_in_range by lia.
  rewrite len_app. unfold len in *.
  rewrite length_firstn, length_skipn. lia.
Qed.

Lemma slice_to_deleted {A} (l : list A) (i j : Z) :
  0 <= i <= j -> j <= len l ->
  slice_to (slice_to l i ++ slice_from l j) i = slice_to l i.
Proof.
  intros Hi Hj.
  assert (Hlen : List.length (firstn (Z.to_nat i) l) = Z.to_nat i).
  { rewrite length_firstn. unfold len in Hj. lia. }
  rewrite (slice_to_in_range l) by lia.
  rewrite slice_to_in_range.
  - rewrite firstn_app, Hlen, Nat.sub_diag, firstn_O, app_nil_r.
    rewrite firstn_firstn. f_equal. lia.
  - rewrite len_app, len_firstn_in_range by lia.
    pose proof (len_nonneg (slice_from l j)). lia.
Qed.

Lemma slice_from_deleted {A} (l : list A) (i j : Z) :
  0 <= i <= j -> j <= len l ->
  slice_from (slice_to l i ++ slice_from l j) i = slice_from l j.
Proof.
  intros Hi Hj.
  assert (Hlen : List.length (firstn (Z.to_nat i) l) = Z.to_nat i).
  { rewrite length_firstn. unfold len in Hj. lia. }
  rewrite (slice_to_in_range l) by lia.
  rewrite slice_from_in_range.
  - rewrite skipn_app, Hlen, Nat.sub_diag. 
    rewrite <- Hlen at 1. rewrite skipn_all. reflexivity.
  - rewrite len_app, len_firstn_in_range by lia.
    pose proof (len_nonneg (slice_from l j)). lia.
Qed.

(** ** Notification *)

Ltac run :=
  unfold bind, ret, raise, try_except, get_document, put_document,
    get_manager, put_manager, print, record_delivery, now,
    with_document, with_command_manager, with_validation_result,
    with_observers in *;
  cbn [fst snd document command_manager clock_reads deliveries stdout
       filepath content modified created_time modified_time read_only
       edit_count last_validation_result observers] in *.

Lemma untouched_refl (w : World) : untouched w w.
Proof. now constructor. Qed.

Lemma untouched_trans (w1 w2 w3 : World) :
  untouched w1 w2 -> untouched w2 w3 -> untouched w1 w3.
Proof.
  intros [] []. constructor; etransitivity; eassumption.
Qed.

Lemma validate_untouched (v : ValidatorState) (w : World) :
  untouched w (snd (ValidatorObserver.validate v w))
  /\ deliveries (snd (ValidatorObserver.validate v w)) = deliveries w
  /\ exists r v', fst (ValidatorObserver.validate v w) = Returned (r, v').
Proof.
  unfold ValidatorObserver.validate, ValidatorObserver.parse_result,
    ValidatorObserver.new_result.
  run.
  destruct (truthy (strip (content (document w)))); cbn.
  - destruct (json_loads (strip (content (document w)))); cbn;
      (split; [now constructor | split; [reflexivity | eauto]]).
  - split; [now constructor | split; [reflexivity | eauto]].
Qed.

(** A call of [update] is recorded once, and leaves the edit state alone
    whether it returns or raises. *)
Lemma update_untouched (o : Observer) (event_type : string)
    (data : EventData) (w : World) :
  untouched w (snd (Observer.update o event_type data w))
  /\ deliveries (snd (Observer.update o event_type data w))
     = deliveries w ++ [mkDelivery o event_type data].
Proof.
  unfold Observer.update, ValidatorObserver.update.
  destruct o as [nm en [v | fails]]; cbn [kind name enabled].
  - destruct (String.eqb event_type "content_changed" && auto_validate v).
    + run.
      match goal with
      | |- context [ValidatorObserver.validate v ?w0] =>
          destruct (validate_untouched v w0) as (Hu & Hd & r & v' & Hr);
          destruct (ValidatorObserver.validate v w0) as [res w2]
      end.
      cbn [fst snd deliveries] in *. subst res. cbn.
      split; [|exact Hd].
      destruct Hu. constructor; assumption.
    + run. split; [now constructor | reflexivity].
  - run. destruct (fails event_type data (content (document w))); cbn;
      (split; [now constructor | reflexivity]).
Qed.

Lemma deliver_spec (os : list Observer) (event_type : string)
    (data : EventData) (w : World) :
  exists os',
    fst (Subject.deliver os event_type data w) = Returned os'
    /\ untouched w (snd (Subject.deliver os event_type data w))
    /\ deliveries (snd (Subject.deliver os event_type data w))
       = deliveries w ++ deliveries_of os event_type data.
Proof.
  revert w. induction os as [|o rest IH]; intros w.
  - exists []. cbn. rewrite app_nil_r.
    split; [reflexivity|]. split; [apply untouched_refl | reflexivity].
  - cbn [Subject.deliver]. unfold deliveries_of. cbn [filter].
    destruct (enabled o); run.
    + destruct (update_untouched o event_type data w) as (Hu & Hd).
      destruct (Observer.update o event_type data w) as [[o'|e] w1];
        cbn [fst snd] in *.
      * destruct (IH w1) as (os' & Hr & Hu' & Hd').
        destruct (Subject.deliver rest event_type data w1) as [res w2].
        cbn [fst snd] in *. subst res. cbn [fst snd deliveries].
        exists (o' :: os'). split; [reflexivity|].
        split; [eapply untouched_trans; eassumption|].
        cbn [List.map]. rewrite Hd', Hd, <- app_assoc. reflexivity.
      * match goal with
        | |- context [Subject.deliver rest event_type data ?w0] =>
            assert (Hu1 : untouched w w0) by (destruct Hu; now constructor);
            destruct (IH w0) as (os' & Hr & Hu' & Hd');
            destruct (Subject.deliver rest event_type data w0) as [res w2]
        end.
        cbn [fst snd deliveries] in *. subst res. cbn [fst snd deliveries].
        exists (o :: os'). split; [reflexivity|].
        split; [eapply untouched_trans; eassumption|].
        cbn [List.map]. rewrite Hd', Hd, <- app_assoc. reflexivity.
    + destruct (IH w) as (os' & Hr & Hu' & Hd').
      destruct (Subject.deliver rest event_type data w) as [res w2].
      cbn [fst snd] in *. subst res. cbn [fst snd deliveries].
      exists (o :: os'). split; [reflexivity|]. split; [exact Hu' | exact Hd'].
Qed.

(** [notify] always returns; it calls the enabled observers in order and
    leaves the edit state alone. *)
Lemma notify_spec (event_type : string) (data : EventData) (w : World) :
  fst (Subject.notify event_type data w) = Returned tt
  /\ untouched w (snd (Subject.notify event_type data w))
  /\ deliveries (snd (Subject.notify event_type data w))
     = deliveries w
       ++ deliveries_of (observers (document w)) event_type data.
Proof.
  unfold Subject.notify. run.
  destruct (deliver_spec (observers (document w)) event_type data w)
    as (os' & Hr & Hu & Hd).
  destruct (Subject.deliver (observers (document w)) event_type data w)
    as [res w1].
  cbn [fst snd] in *. subst res. run.
  split; [reflexivity|]. split; [|exact Hd].
  destruct Hu. constructor; assumption.
Qed.

(** ** The document buffer *)

(** The second half of a mutator: the notification, if asked for. *)
Lemma notified_edit (notify : bool) (event_type : string) (data : EventData)
    (w0 w : World) (new_content : Text) :
  content (document w) = new_content ->
  edit_count (document w) = edit_count (document w0) + 1 ->
  modified (document w) = true ->
  read_only (document w) = read_only (document w0) ->
  filepath (document w) = filepath (document w0) ->
  command_manager w = command_manager w0 ->
  deliveries w = deliveries w0 ->
  observers (document w) = observers (document w0) ->
  let r := (if notify then Subject.notify event_type data else ret tt) w in
  fst r = Returned tt
  /\ edited w0 (snd r) new_content
       (if notify
        then deliveries_of (observers (document w0)) event_type data
        else []).
Proof.
  intros Hc He Hm Hr Hf Hcm Hd Ho. destruct notify; cbn zeta.
  - destruct (notify_spec event_type data w) as (Hret & [] & Hdel).
    split; [exact Hret|].
    constructor; congruence.
  - cbn. split; [reflexivity|].
    constructor; try assumption. rewrite app_nil_r. exact Hd.
Qed.

(** On the call that ends a mutator: it returns, with the effect
    [notified_edit] describes. *)
Ltac notified w0 new_content :=
  match goal with
  | |- context [(if ?notify then Subject.notify ?ev ?data else ?k) ?w1] =>
      let Hn := fresh "Hn" in
      pose proof (@notified_edit notify ev data w0 w1 new_content) as Hn;
      unfold ret in Hn; cbn zeta in Hn;
      destruct Hn as (Hret & Hed);
      try reflexivity; try (cbn; congruence);
      destruct ((if notify then Subject.notify ev data else k) w1)
        as [[[]|?e] ?w2];
      cbn [fst snd] in *; [|discriminate]
  end.

Lemma position_guard (c : Text) (position : Z) :
  (position <? 0) || (position >? len c) = false <-> valid_position c position.
Proof.
  unfold valid_position. rewrite orb_false_iff, Z.ltb_ge, Z.gtb_ltb, Z.ltb_ge.
  lia.
Qed.

Lemma range_guard (c : Text) (start end_ : Z) :
  (start <? 0) || (end_ >? len c) || (start >? end_) = false
  <-> valid_range c start end_.
Proof.
  unfold valid_range.
  rewrite !orb_false_iff, !Z.gtb_ltb, !Z.ltb_ge. lia.
Qed.

(** [insert]: what it returns or raises, case by case. *)
Lemma insert_spec (position : Z) (text : Text) (notify : bool) (w : World) :
  let c := content (document w) in
  match Document.insert position text notify w with
  | (Returned _, w') =>
      read_only (document w) = false /\ valid_position c position
      /\ edited w w' (slice_to c position ++ text ++ slice_from c position)
           (if notify
            then deliveries_of (observers (document w)) "content_changed"
                   (InsertData position text (len text))
            else [])
  | (Raised e, w') =>
      w' = w
      /\ (if read_only (document w)
          then e = RuntimeError Document.read_only_message
          else ~ valid_position c position
               /\ e = ValueError (Document.invalid_position position))
  end.
Proof.
  intros c. subst c. set (c := content (document w)).
  unfold Document.insert. run. fold c.
  destruct (read_only (document w)) eqn:Hro; [now split|].
  destruct ((position <? 0) || (position >? len c)) eqn:Hg.
  - split; [reflexivity|]. split; [|reflexivity].
    intros Hv. apply position_guard in Hv. congruence.
  - apply position_guard in Hg.
    notified w (slice_to c position ++ text ++ slice_from c position).
    split; [reflexivity|]. split; assumption.
Qed.

(** [delete] *)
Lemma delete_spec (start end_ : Z) (notify : bool) (w : World) :
  let c := content (document w) in
  match Document.delete start end_ notify w with
  | (Returned _, w') =>
      read_only (document w) = false /\ valid_range c start end_
      /\ edited w w' (slice_to c start ++ slice_from c end_)
           (if notify
            then deliveries_of (observers (document w)) "content_changed"
                   (DeleteData start end_ (slice c start end_)
                      (len (slice c start end_)))
            else [])
  | (Raised e, w') =>
      w' = w
      /\ (if read_only (document w)
          then e = RuntimeError Document.delete_read_only_message
          else ~ valid_range c start end_
               /\ e = ValueError (Document.invalid_range start end_))
  end.
Proof.
  intros c. subst c. set (c := content (document w)).
  unfold Document.delete. run. fold c.
  destruct (read_only (document w)) eqn:Hro; [now split|].
  destruct ((start <? 0) || (end_ >? len c) || (start >? end_)) eqn:Hg.
  - split; [reflexivity|]. split; [|reflexivity].
    intros Hv. apply range_guard in Hv. congruence.
  - apply range_guard in Hg.
    notified w (slice_to c start ++ slice_from c end_).
    split; [reflexivity|]. split; assumption.
Qed.

(** [get_text] reads and changes nothing. *)
Lemma get_text_spec (start end_ : Z) (w : World) :
  let c := content (document w) in
  match Document.get_text start end_ w with
  | (Returned t, w') =>
      w' = w /\ valid_range c start end_ /\ t = slice c start end_
  | (Raised e, w') =>
      w' = w /\ ~ valid_range c start end_
      /\ e = ValueError (Document.invalid_range start end_)
  end.
Proof.
  intros c. subst c. set (c := content (document w)).
  unfold Document.get_text. run. fold c.
  destruct ((start <? 0) || (end_ >? len c) || (start >? end_)) eqn:Hg.
  - split; [reflexivity|]. split; [|reflexivity].
    intros Hv. apply range_guard in Hv. congruence.
  - apply range_guard in Hg.
    split; [reflexivity|]. split; [assumption | reflexivity].
Qed.

(** [set_content] *)
Lemma set_content_spec (new_content : Text) (notify : bool) (w : World) :
  match Document.set_content new_content notify w with
  | (Returned _, w') =>
      read_only (document w) = false
      /\ edited w w' new_content
           (if notify
            then deliveries_of (observers (document w)) "content_changed"
                   (FullReplace (content (document w)) new_content)
            else [])
  | (Raised e, w') =>
      w' = w /\ read_only (document w) = true
      /\ e = RuntimeError Document.read_only_message
  end.
Proof.
  unfold Document.set_content. run.
  destruct (read_only (document w)) eqn:Hro; [now repeat split|].
  notified w new_content.
  split; [reflexivity | assumption].
Qed.

(** [load_from_file], [mark_as_saved] and [reset] end with a notification
    too, and never look at the read-only flag. *)
Lemma load_from_file_spec (path : string) (new_content : Text) (w : World) :
  let r := Document.load_from_file path new_content w in
  fst r = Returned tt
  /\ content (document (snd r)) = new_content
  /\ filepath (document (snd r)) = Some path
  /\ modified (document (snd r)) = false
  /\ edit_count (document (snd r)) = edit_count (document w)
  /\ read_only (document (snd r)) = read_only (document w)
  /\ command_manager (snd r) = command_manager w
  /\ deliveries (snd r)
     = deliveries w
       ++ deliveries_of (observers (document w)) "loaded"
            (LoadedData path (len new_content)).
Proof.
  unfold Document.load_from_file. run.
  match goal with
  | |- context [Subject.notify ?ev ?data ?w1] =>
      destruct (notify_spec ev data w1) as (Hret & [] & Hdel);
      destruct (Subject.notify ev data w1) as [res w2]
  end.
  cbn [fst snd] in *. subst res. cbn in *. now repeat split.
Qed.

Lemma mark_as_saved_spec (path : option string) (w : World) :
  let r := Document.mark_as_saved path w in
  fst r = Returned tt
  /\ content (document (snd r)) = content (document w)
  /\ modified (document (snd r)) = false
  /\ edit_count (document (snd r)) = edit_count (document w)
  /\ read_only (document (snd r)) = read_only (document w)
  /\ command_manager (snd r) = command_manager w.
Proof.
  unfold Document.mark_as_saved. run.
  match goal with
  | |- context [Subject.notify ?ev ?data ?w1] =>
      destruct (notify_spec ev data w1) as (Hret & [] & Hdel);
      destruct (Subject.notify ev data w1) as [res w2]
  end.
  cbn [fst snd] in *. subst res. cbn in *. now repeat split.
Qed.

Lemma reset_spec (w : World) :
  match Document.reset w with
  | (Returned _, w') =>
      filepath (document w) = None
      /\ content (document w') = []
      /\ modified (document w') = false
      /\ edit_count (document w') = 0
      /\ read_only (document w') = read_only (document w)
      /\ command_manager w' = command_manager w
      /\ deliveries w'
         = deliveries w
           ++ deliveries_of (observers (document w)) "reset" EmptyData
  | (Raised e, w') => w' = w /\ filepath (document w) <> None
  end.
Proof.
  unfold Document.reset, Document.is_new. run.
  destruct (filepath (document w)) eqn:Hf; cbn [negb].
  - now split.
  - match goal with
    | |- context [Subject.notify ?ev ?data ?w1] =>
        destruct (notify_spec ev data w1) as (Hret & [] & Hdel);
        destruct (Subject.notify ev data w1) as [res w2]
    end.
    cbn [fst snd] in *. subst res. cbn in *. now repeat split.
Qed.

(** ** Commands *)

Lemma execute_composite (d : string) (x : bool) (cs : list Command) :
  Command.execute (CompositeCommand d x cs)
  = (' (success, cs') <- execute_all cs;;
     ret (success, CompositeCommand d (if success then true else x) cs')).
Proof. reflexivity. Qed.

Lemma undo_composite (d : string) (x : bool) (cs : list Command) :
  Command.undo (CompositeCommand d x cs)
  = (' (success, cs') <- undo_all cs;;
     ret (success, CompositeCommand d (if success then false else x) cs')).
Proof. reflexivity. Qed.

(** The loop of [undo] starts from the last child: it is the loop over
    [reversed(self._commands)]. *)
Lemma undo_all_last (cs : list Command) (c : Command) (w : World) :
  undo_all (cs ++ [c]) w
  = (' (ok, c') <- Command.undo c;;
     if ok
     then ' (success, cs') <- undo_all cs;; ret (success, cs' ++ [c'])
     else ret (false, cs ++ [c'])) w.
Proof.
  revert w. induction cs as [|a cs IH]; intros w.
  - cbn [app undo_all]. run.
    destruct (Command.undo c w) as [[[[] c']|e] w1]; reflexivity.
  - cbn [app undo_all]. unfold bind at 1. rewrite IH. run.
    destruct (Command.undo c w) as [[[[] c']|e] w1]; try reflexivity.
    destruct (undo_all cs w1) as [[[[] cs']|e] w2]; try reflexivity.
    destruct (Command.undo a w2) as [[[ok a']|e] w3]; reflexivity.
Qed.

Lemma Command_induction (P : Command -> Prop) :
  (forall d x position text, P (InsertCommand d x position text)) ->
  (forall d x start_position end_position deleted_text,
      P (DeleteCommand d x start_position end_position deleted_text)) ->
  (forall d x cs, Forall P cs -> P (CompositeCommand d x cs)) ->
  forall c, P c.
Proof.
  intros HI HD HC. fix IH 1. intros [d x p t | d x s e t | d x cs].
  - apply HI.
  - apply HD.
  - apply HC. induction cs as [|c cs IHcs]; constructor; [apply IH | exact IHcs].
Qed.

Lemma advanced_refl (w : World) : advanced w w.
Proof. constructor; reflexivity || lia. Qed.

Lemma advanced_trans (w1 w2 w3 : World) :
  advanced w1 w2 -> advanced w2 w3 -> advanced w1 w3.
Proof. intros [] []. constructor; congruence || lia. Qed.

Lemma edited_advanced (w w' : World) (c : Text) (ds : list Delivery) :
  edited w w' c ds -> advanced w w'.
Proof. intros []. constructor; congruence || lia. Qed.

Lemma only_printed_advanced (w w' : World) : only_printed w w' -> advanced w w'.
Proof. intros [Hd Hm _ _]. constructor; rewrite ?Hd; trivial; lia. Qed.

(** [InsertCommand.execute] *)
Lemma insert_execute_spec (d : string) (x : bool) (position : Z)
    (text : Text) (w : World) :
  let c := content (document w) in
  exists (ok : bool) (w' : World),
    InsertCommand.execute d x position text w
    = (Returned (ok, InsertCommand d (if ok then true else x) position text),
       w')
    /\ if ok
       then read_only (document w) = false /\ valid_position c position
            /\ edited w w'
                 (slice_to c position ++ text ++ slice_from c position)
                 (deliveries_of (observers (document w)) "content_changed"
                    (InsertData position text (len text)))
       else (read_only (document w) = true \/ ~ valid_position c position)
            /\ only_printed w w'.
Proof.
  intros c. unfold InsertCommand.execute. run.
  pose proof (insert_spec position text true w) as Hs. cbn zeta in Hs.
  destruct (Document.insert position text true w) as [[[]|e] w1].
  - exists true, w1. split; [reflexivity | exact Hs].
  - destruct Hs as (-> & Hs). exists false. eexists. split; [reflexivity|].
    split; [|now constructor].
    destruct (read_only (document w)); [now left | right; apply Hs].
Qed.

(** [InsertCommand.undo] *)
Lemma insert_undo_spec (d : string) (x : bool) (position : Z)
    (text : Text) (w : World) :
  let c := content (document w) in
  let end_position := position + len text in
  exists (ok : bool) (w' : World),
    InsertCommand.undo d x position text w
    = (Returned (ok, InsertCommand d (if ok then false else x) position text),
       w')
    /\ if ok
       then read_only (document w) = false
            /\ valid_range c position end_position
            /\ edited w w' (slice_to c position ++ slice_from c end_position)
                 (deliveries_of (observers (document w)) "content_changed"
                    (DeleteData position end_position
                       (slice c position end_position)
                       (len (slice c position end_position))))
       else (read_only (document w) = true
             \/ ~ valid_range c position end_position)
            /\ only_printed w w'.
Proof.
  intros c end_position. unfold InsertCommand.undo. run.
  pose proof (delete_spec position end_position true w) as Hs.
  cbn zeta in Hs. fold end_position.
  destruct (Document.delete position end_position true w) as [[[]|e] w1].
  - exists true, w1. split; [reflexivity | exact Hs].
  - destruct Hs as (-> & Hs). exists false. eexists. split; [reflexivity|].
    split; [|now constructor].
    destruct (read_only (document w)); [now left | right; apply Hs].
Qed.

(** [DeleteCommand.execute]: on success the command holds the text that
    was in the range. *)
Lemma delete_execute_spec (d : string) (x : bool) (start end_ : Z)
    (deleted_text : Text) (w : World) :
  let c := content (document w) in
  exists (ok : bool) (captured : Text) (w' : World),
    DeleteCommand.execute d x start end_ deleted_text w
    = (Returned
         (ok, DeleteCommand d (if ok then true else x) start end_ captured),
       w')
    /\ if ok
       then read_only (document w) = false /\ valid_range c start end_
            /\ captured = slice c start end_
            /\ edited w w' (slice_to c start ++ slice_from c end_)
                 (deliveries_of (observers (document w)) "content_changed"
                    (DeleteData start end_ (slice c start end_)
                       (len (slice c start end_))))
       else (read_only (document w) = true \/ ~ valid_range c start end_)
            /\ only_printed w w'.
Proof.
  intros c. unfold DeleteCommand.execute. run.
  pose proof (get_text_spec start end_ w) as Hg. cbn zeta in Hg.
  destruct (Document.get_text start end_ w) as [[t|e] w1].
  - destruct Hg as (-> & Hv & ->).
    pose proof (delete_spec start end_ true w) as Hs. cbn zeta in Hs.
    destruct (Document.delete start end_ true w) as [[[]|e] w1].
    + exists true. do 2 eexists. split; [reflexivity|].
      destruct Hs as (Hro & _ & Hed).
      split; [exact Hro|]. split; [exact Hv|]. split; [reflexivity | exact Hed].
    + destruct Hs as (-> & Hs). exists false. do 2 eexists.
      split; [reflexivity|]. split; [|now constructor].
      destruct (read_only (document w)); [now left | right; apply Hs].
  - destruct Hg as (-> & Hv & ->). exists false. do 2 eexists.
    split; [reflexivity|]. split; [now right | now constructor].
Qed.

(** [DeleteCommand.undo] *)
Lemma delete_undo_spec (d : string) (x : bool) (start end_ : Z)
    (deleted_text : Text) (w : World) :
  let c := content (document w) in
  exists (ok : bool) (w' : World),
    DeleteCommand.undo d x start end_ deleted_text w
    = (Returned
         (ok, DeleteCommand d (if ok then false else x) start end_
                deleted_text),
       w')
    /\ if ok
       then read_only (document w) = false /\ valid_position c start
            /\ edited w w'
                 (slice_to c start ++ deleted_text ++ slice_from c start)
                 (deliveries_of (observers (document w)) "content_changed"
                    (InsertData start deleted_text (len deleted_text)))
       else (read_only (document w) = true \/ ~ valid_position c start)
            /\ only_printed w w'.
Proof.
  intros c. unfold DeleteCommand.undo. run.
  pose proof (insert_spec start deleted_text true w) as Hs. cbn zeta in Hs.
  destruct (Document.insert start deleted_text true w) as [[[]|e] w1].
  - exists true, w1. split; [reflexivity | exact Hs].
  - destruct Hs as (-> & Hs). exists false. eexists. split; [reflexivity|].
    split; [|now constructor].
    destruct (read_only (document w)); [now left | right; apply Hs].
Qed.

(** Commands never raise, and respect [advanced]. *)
Lemma execute_all_total (cs : list Command) :
  Forall (fun c => forall w, exists ok c' w',
            Command.execute c w = (Returned (ok, c'), w') /\ advanced w w')
    cs ->
  forall w, exists ok cs' w',
    execute_all cs w = (Returned (ok, cs'), w') /\ advanced w w'
    /\ List.length cs' = List.length cs.
Proof.
  induction 1 as [|c rest Hc _ IH]; intros w; cbn [execute_all]; run.
  - exists true, [], w. repeat split. apply advanced_refl.
  - destruct (Hc w) as (ok & c' & w1 & -> & Ha). destruct ok.
    + destruct (IH w1) as (ok & rest' & w2 & -> & Ha' & Hl).
      exists ok, (c' :: rest'), w2. split; [reflexivity|].
      split; [eapply advanced_trans; eassumption | cbn; congruence].
    + exists false, (c' :: rest), w1. split; [reflexivity|].
      split; [assumption | reflexivity].
Qed.

Lemma undo_all_total (cs : list Command) :
  Forall (fun c => forall w, exists ok c' w',
            Command.undo c w = (Returned (ok, c'), w') /\ advanced w w')
    cs ->
  forall w, exists ok cs' w',
    undo_all cs w = (Returned (ok, cs'), w') /\ advanced w w'
    /\ List.length cs' = List.length cs.
Proof.
  induction 1 as [|c rest Hc _ IH]; intros w; cbn [undo_all]; run.
  - exists true, [], w. repeat split. apply advanced_refl.
  - destruct (IH w) as (ok & rest' & w1 & -> & Ha & Hl). destruct ok.
    + destruct (Hc w1) as (ok & c' & w2 & -> & Ha').
      exists ok, (c' :: rest'), w2. split; [reflexivity|].
      split; [eapply advanced_trans; eassumption | cbn; congruence].
    + exists false, (c :: rest'), w1. split; [reflexivity|].
      split; [assumption | cbn; congruence].
Qed.

Lemma execute_total (c : Command) (w : World) :
  exists ok c' w',
    Command.execute c w = (Returned (ok, c'), w') /\ advanced w w'.
Proof.
  revert w. induction c as [d x p t | d x s e t | d x cs IH]
    using Command_induction; intros w.
  - destruct (insert_execute_spec d x p t w) as (ok & w' & Heq & Hs).
    exists ok. do 2 eexists. split; [exact Heq|].
    destruct ok; [eapply edited_advanced | apply only_printed_advanced];
      apply Hs.
  - destruct (delete_execute_spec d x s e t w) as (ok & cap & w' & Heq & Hs).
    exists ok. do 2 eexists. split; [exact Heq|].
    destruct ok; [eapply edited_advanced | apply only_printed_advanced];
      apply Hs.
  - rewrite execute_composite. run.
    destruct (execute_all_total cs IH w) as (ok & cs' & w' & -> & Ha & _).
    do 3 eexists. split; [reflexivity | exact Ha].
Qed.

Lemma undo_total (c : Command) (w : World) :
  exists ok c' w',
    Command.undo c w = (Returned (ok, c'), w') /\ advanced w w'.
Proof.
  revert w. induction c as [d x p t | d x s e t | d x cs IH]
    using Command_induction; intros w.
  - destruct (insert_undo_spec d x p t w) as (ok & w' & Heq & Hs).
    exists ok. do 2 eexists. split; [exact Heq|].
    destruct ok; [eapply edited_advanced | apply only_printed_advanced];
      apply Hs.
  - destruct (delete_undo_spec d x s e t w) as (ok & w' & Heq & Hs).
    exists ok. do 2 eexists. split; [exact Heq|].
    destruct ok; [eapply edited_advanced | apply only_printed_advanced];
      apply Hs.
  - rewrite undo_composite. run.
    destruct (undo_all_total cs IH w) as (ok & cs' & w' & -> & Ha & _).
    do 3 eexists. split; [reflexivity | exact Ha].
Qed.

(** ** Undo takes back execute *)

Lemma slice_split {A} (l : list A) (i : Z) :
  0 <= i <= len l -> slice_to l i ++ slice_from l i = l.
Proof.
  intros Hi. rewrite slice_to_in_range, slice_from_in_range by lia.
  apply firstn_skipn.
Qed.

Lemma insert_restores (d : string) (x : bool) (position : Z) (text : Text) :
  restores (InsertCommand d x position text).
Proof.
  intros w c' w1 Hex w2 Hc2 Hr2. cbn [Command.execute] in Hex.
  destruct (insert_execute_spec d x position text w)
    as (ok & w' & Heq & Hs).
  rewrite Heq in Hex. injection Hex as -> <- ->.
  destruct Hs as (Hro & Hv & Hed).
  cbn [Command.undo].
  destruct (insert_undo_spec d true position text w2)
    as (ok & w3 & Hu & Hs).
  cbn zeta in Hs. rewrite Hc2, (ed_content Hed) in Hs.
  unfold valid_position in Hv. pose proof (len_nonneg text) as Ht.
  destruct ok.
  - exists (InsertCommand d false position text), w3.
    split; [exact Hu|]. destruct Hs as (_ & _ & Hed').
    split; [|eapply edited_advanced; exact Hed'].
    rewrite (ed_content Hed').
    rewrite slice_to_inserted, slice_from_inserted by assumption.
    now apply slice_split.
  - destruct Hs as ([Hro' | Hnv] & _); [congruence|].
    exfalso. apply Hnv. unfold valid_range.
    rewrite len_inserted by assumption. lia.
Qed.

Lemma delete_restores (d : string) (x : bool) (start end_ : Z)
    (deleted_text : Text) :
  restores (DeleteCommand d x start end_ deleted_text).
Proof.
  intros w c' w1 Hex w2 Hc2 Hr2. cbn [Command.execute] in Hex.
  destruct (delete_execute_spec d x start end_ deleted_text w)
    as (ok & captured & w' & Heq & Hs).
  rewrite Heq in Hex. injection Hex as -> <- ->.
  destruct Hs as (Hro & Hv & -> & Hed).
  cbn [Command.undo].
  destruct (delete_undo_spec d true start end_
              (slice (content (document w)) start end_) w2)
    as (ok & w3 & Hu & Hs).
  cbn zeta in Hs. rewrite Hc2, (ed_content Hed) in Hs.
  destruct Hv as (Hv1 & Hv2).
  destruct ok.
  - eexists _, w3.
    split; [exact Hu|]. destruct Hs as (_ & _ & Hed').
    split; [|eapply edited_advanced; exact Hed'].
    rewrite (ed_content Hed').
    rewrite slice_to_deleted, slice_from_deleted by assumption.
    now apply slice_parts.
  - destruct Hs as ([Hro' | Hnv] & _); [congruence|].
    exfalso. apply Hnv. unfold valid_position.
    rewrite len_deleted by assumption. lia.
Qed.

Lemma all_restore (cs : list Command) :
  Forall restores cs ->
  forall w cs' w1,
    execute_all cs w = (Returned (true, cs'), w1) ->
    forall w2,
      content (document w2) = content (document w1) ->
      read_only (document w2) = read_only (document w) ->
      exists cs'' w3,
        undo_all cs' w2 = (Returned (true, cs''), w3)
        /\ content (document w3) = content (document w)
        /\ advanced w2 w3.
Proof.
  induction 1 as [|c rest Hc _ IH]; intros w cs' w1 Hex w2 Hc2 Hr2;
    cbn [execute_all] in Hex; run.
  - injection Hex as <- <-. exists [], w2. cbn.
    split; [reflexivity|]. split; [assumption | apply advanced_refl].
  - destruct (execute_total c w) as (ok & c' & wa & Hexc & Ha).
    rewrite Hexc in Hex. destruct ok; [|discriminate].
    destruct (execute_all rest wa) as [[[ok rest']|e] wb] eqn:Hrest;
      [|discriminate].
    injection Hex as -> <- ->.
    cbn [undo_all]. run.
    destruct (IH wa rest' w1 Hrest w2 Hc2) as (rest'' & w3 & -> & Hc3 & Ha3).
    { rewrite Hr2. symmetry. apply Ha. }
    destruct (Hc w c' wa Hexc w3 Hc3) as (c'' & w4 & -> & Hc4 & Ha4).
    { rewrite (adv_read_only Ha3). exact Hr2. }
    exists (c'' :: rest''), w4. split; [reflexivity|].
    split; [exact Hc4 | eapply advanced_trans; eassumption].
Qed.

(** Every command takes back what it did, composites included. *)
Lemma every_command_restores (c : Command) : restores c.
Proof.
  induction c as [d x p t | d x s e t | d x cs IH] using Command_induction.
  - apply insert_restores.
  - apply delete_restores.
  - intros w c' w1 Hex w2 Hc2 Hr2.
    rewrite execute_composite in Hex. run.
    destruct (execute_all cs w) as [[[ok cs']|e] wa] eqn:Hall;
      [|discriminate].
    injection Hex as -> <- ->.
    destruct (all_restore cs IH _ _ _ Hall _ Hc2 Hr2) as (cs'' & w3 & Hu & Hc3 & Ha).
    rewrite undo_composite. run. rewrite Hu.
    do 2 eexists. split; [reflexivity|]. split; assumption.
Qed.

(** ** The history manager *)

Lemma manager_execute_run (c : Command) (w : World) :
  exists ok c' w1,
    Command.execute c w = (Returned (ok, c'), w1)
    /\ advanced w w1
    /\ CommandManager.execute c w
       = (Returned ok,
          if ok then with_command_manager (pushed (command_manager w) c') w1
          else w1).
Proof.
  destruct (execute_total c w) as (ok & c' & w1 & Hex & Ha).
  exists ok, c', w1. split; [exact Hex|]. split; [exact Ha|].
  unfold CommandManager.execute. run. rewrite Hex.
  destruct ok; cbn [negb]; [|reflexivity].
  unfold pushed. rewrite (adv_manager Ha).
  destruct (len _ >? max_history (command_manager w)); reflexivity.
Qed.

Lemma manager_undo_run (w : World) (c : Command) :
  let m := command_manager w in
  CommandManager.can_undo m = true ->
  index (history m) (current_index m) = Some c ->
  exists ok c' w1,
    Command.undo c w = (Returned (ok, c'), w1)
    /\ advanced w w1
    /\ CommandManager.undo w
       = (Returned ok,
          with_command_manager
            (revisited m (current_index m) c'
               (if ok then current_index m - 1 else current_index m))
            w1).
Proof.
  intros m Hcan Hidx.
  destruct (undo_total c w) as (ok & c' & w1 & Hun & Ha).
  exists ok, c', w1. split; [exact Hun|]. split; [exact Ha|].
  unfold CommandManager.undo. run. fold m. rewrite Hcan, Hidx. cbn [negb].
  rewrite Hun. destruct ok; reflexivity.
Qed.

Lemma manager_redo_run (w : World) (c : Command) :
  let m := command_manager w in
  CommandManager.can_redo m = true ->
  index (history m) (current_index m + 1) = Some c ->
  exists ok c' w1,
    Command.execute c w = (Returned (ok, c'), w1)
    /\ advanced w w1
    /\ CommandManager.redo w
       = (Returned ok,
          with_command_manager
            (revisited m (current_index m + 1) c'
               (if ok then current_index m + 1 else current_index m))
            w1).
Proof.
  intros m Hcan Hidx.
  destruct (execute_total c w) as (ok & c' & w1 & Hex & Ha).
  exists ok, c', w1. split; [exact Hex|]. split; [exact Ha|].
  unfold CommandManager.redo. run. fold m. rewrite Hcan, Hidx. cbn [negb].
  rewrite Hex. destruct ok; reflexivity.
Qed.

Lemma index_in_range {A} (l : list A) (i : Z) :
  0 <= i < len l -> exists x, index l i = Some x.
Proof.
  intros Hi. unfold index.
  destruct (Z.ltb_spec i (- len l)); [lia|].
  destruct (Z.leb_spec (len l) i); [lia|]. cbn [orb].
  destruct (Z.ltb_spec i 0); [lia|].
  destruct (nth_error l (Z.to_nat i)) eqn:Hn; [eauto|].
  apply nth_error_None in Hn. unfold len in Hi. lia.
Qed.

Lemma length_list_set {A} (l : list A) (n : nat) (x : A) :
  List.length (list_set l n x) = List.length l.
Proof.
  revert n. induction l as [|y l IH]; intros [|n]; cbn; congruence.
Qed.

Lemma len_list_set {A} (l : list A) (n : nat) (x : A) :
  len (list_set l n x) = len l.
Proof. unfold len. now rewrite length_list_set. Qed.

Lemma pushed_invariant (m : CommandManager) (c' : Command) :
  1 <= max_history m -> history_invariant m ->
  history_invariant (pushed m c') /\ max_history (pushed m c') = max_history m.
Proof.
  unfold history_invariant, pushed. intros Hmax ((Hlo & Hhi) & Hlen).
  set (history1 := if current_index m <? len (history m) - 1 then _ else _).
  assert (H1 : len history1 = current_index m + 1).
  { subst history1. destruct (Z.ltb_spec (current_index m) (len (history m) - 1)).
    - rewrite slice_to_in_range by lia. apply len_firstn_in_range. lia.
    - lia. }
  assert (H2 : len (history1 ++ [c']) = current_index m + 2).
  { rewrite len_app, H1. cbn. lia. }
  destruct (Z.gtb_spec (len (history1 ++ [c'])) (max_history m)) as [Hgt|Hle];
    cbn [history current_index max_history].
  - split; [|reflexivity].
    rewrite slice_from_in_range, len_skipn_in_range by lia. lia.
  - split; [|reflexivity]. lia.
Qed.

Lemma new_invariant (n : option Z) :
  1 <= max_history (CommandManager.new n) ->
  history_invariant (CommandManager.new n).
Proof. unfold history_invariant. cbn. lia. Qed.

Lemma revisited_invariant (m : CommandManager) (i : Z) (c' : Command)
    (i' : Z) :
  history_invariant m -> -1 <= i' <= len (history m) - 1 ->
  history_invariant (revisited m i c' i')
  /\ max_history (revisited m i c' i') = max_history m.
Proof.
  unfold history_invariant, revisited. cbn. rewrite len_list_set. lia.
Qed.

Lemma execute_keeps_invariant (c : Command) (w : World) :
  1 <= max_history (command_manager w) ->
  history_invariant (command_manager w) ->
  keeps_history_invariant w (snd (CommandManager.execute c w)).
Proof.
  intros Hmax Hinv.
  destruct (manager_execute_run c w) as (ok & c' & w1 & _ & Ha & ->).
  unfold keeps_history_invariant. destruct ok; cbn.
  - now apply pushed_invariant.
  - rewrite (adv_manager Ha). now split.
Qed.

Lemma undo_keeps_invariant (w : World) :
  history_invariant (command_manager w) ->
  keeps_history_invariant w (snd (CommandManager.undo w)).
Proof.
  intros Hinv. unfold keeps_history_invariant.
  destruct (CommandManager.can_undo (command_manager w)) eqn:Hcan.
  - pose proof Hinv as ((Hlo & Hhi) & Hlen).
    unfold CommandManager.can_undo in Hcan. apply Z.geb_le in Hcan.
    destruct (@index_in_range _ (history (command_manager w))
                (current_index (command_manager w))) as (c & Hidx); [lia|].
    destruct (@manager_undo_run w c) as (ok & c' & w1 & _ & _ & ->);
      [now apply Z.geb_le | exact Hidx |].
    cbn. apply revisited_invariant; [exact Hinv|]. destruct ok; lia.
  - unfold CommandManager.undo. run. rewrite Hcan. cbn. now split.
Qed.

Lemma redo_keeps_invariant (w : World) :
  history_invariant (command_manager w) ->
  keeps_history_invariant w (snd (CommandManager.redo w)).
Proof.
  intros Hinv. unfold keeps_history_invariant.
  destruct (CommandManager.can_redo (command_manager w)) eqn:Hcan.
  - pose proof Hinv as ((Hlo & Hhi) & Hlen).
    pose proof Hcan as Hlt.
    unfold CommandManager.can_redo in Hlt. apply Z.ltb_lt in Hlt.
    destruct (@index_in_range _ (history (command_manager w))
                (current_index (command_manager w) + 1)) as (c & Hidx);
      [lia|].
    destruct (@manager_redo_run w c) as (ok & c' & w1 & _ & _ & ->);
      [exact Hcan | exact Hidx |].
    cbn. apply revisited_invariant; [exact Hinv|]. destruct ok; lia.
  - unfold CommandManager.redo. run. rewrite Hcan. cbn. now split.
Qed.

Lemma clear_history_keeps_invariant (w : World) :
  1 <= max_history (command_manager w) ->
  keeps_history_invariant w (snd (CommandManager.clear_history w)).
Proof.
  intros Hmax. unfold keeps_history_invariant, history_invariant. cbn. lia.
Qed.

(** C10.  A command manager constructed with a maximum history of at least
    1 satisfies [-1 <= current_index <= len(history) - 1] and
    [len(history) <= max_history], and [execute], [undo], [redo] and
    [clear_history] keep both (and the maximum), whether the commands they
    run succeed or fail. *)
Theorem history_invariant_preserved (w : World) :
  1 <= max_history (command_manager w) ->
  (exists n, command_manager w = CommandManager.new n)
  \/ history_invariant (command_manager w) ->
  history_invariant (command_manager w)
  /\ (forall c, keeps_history_invariant w (snd (CommandManager.execute c w)))
  /\ keeps_history_invariant w (snd (CommandManager.undo w))
  /\ keeps_history_invariant w (snd (CommandManager.redo w))
  /\ keeps_history_invariant w (snd (CommandManager.clear_history w)).
Proof.
  intros Hmax Hstart.
  assert (Hinv : history_invariant (command_manager w)).
  { destruct Hstart as [(n & Hn) | Hinv]; [|exact Hinv].
    rewrite Hn in *. now apply new_invariant. }
  split; [exact Hinv|].
  split; [intros c; now apply execute_keeps_invariant|].
  split; [now apply undo_keeps_invariant|].
  split; [now apply redo_keeps_invariant|].
  now apply clear_history_keeps_invariant.
Qed.

(** ** The inverse laws *)

(** C1.  On a document that is not read-only, with content [C], for a
    position [0 <= pos <= len(C)] and any text, [InsertCommand(pos,
    text).execute()] returns [True] and splices the text in, and
    [undo()] then returns [True] and leaves the content equal to [C]. *)
Theorem insert_then_undo_restores_content (w : World) (position : Z)
    (text : Text) :
  read_only (document w) = false ->
  0 <= position <= len (content (document w)) ->
  exists c' w1 c'' w2,
    Command.execute (InsertCommand.new position text) w
    = (Returned (true, c'), w1)
    /\ content (document w1)
       = slice_to (content (document w)) position ++ text
           ++ slice_from (content (document w)) position
    /\ Command.undo c' w1 = (Returned (true, c''), w2)
    /\ content (document w2) = content (document w).
Proof.
  intros Hro Hpos. unfold InsertCommand.new.
  set (d := (_ ++ _)%string).
  destruct (insert_execute_spec d false position text w)
    as (ok & w1 & Hex & Hs).
  destruct ok.
  - destruct Hs as (_ & _ & Hed).
    destruct (@every_command_restores (InsertCommand d false position text)
                w _ w1 Hex w1 eq_refl (ed_read_only Hed))
      as (c'' & w2 & Hun & Hc & _).
    do 4 eexists. split; [exact Hex|].
    split; [exact (ed_content Hed)|]. split; [exact Hun | exact Hc].
  - destruct Hs as ([Hro' | Hnv] & _); [congruence | now elim Hnv].
Qed.

(** C2.  On a document that is not read-only, with content [C], for a
    range [0 <= start <= end <= len(C)], [DeleteCommand(start,
    end).execute()] returns [True], keeps the text [C[start:end]] it removed,
    and [undo()] then returns [True] by putting exactly that text back at
    [start], which leaves the content equal to [C]. *)
Theorem delete_then_undo_restores_content (w : World) (start end_ : Z) :
  read_only (document w) = false ->
  0 <= start <= end_ /\ end_ <= len (content (document w)) ->
  let C := content (document w) in
  let removed := slice C start end_ in
  exists d w1 c'' w2,
    Command.execute (DeleteCommand.new start end_) w
    = (Returned (true, DeleteCommand d true start end_ removed), w1)
    /\ content (document w1) = slice_to C start ++ slice_from C end_
    /\ Command.undo (DeleteCommand d true start end_ removed) w1
       = (Returned (true, c''), w2)
    /\ content (document w2)
       = slice_to (content (document w1)) start ++ removed
           ++ slice_from (content (document w1)) start
    /\ content (document w2) = C.
Proof.
  intros Hro Hrange C removed. unfold DeleteCommand.new.
  set (d := (_ ++ _)%string).
  destruct (delete_execute_spec d false start end_ [] w)
    as (ok & captured & w1 & Hex & Hs).
  destruct ok.
  - destruct Hs as (_ & _ & -> & Hed). fold C removed in Hex.
    destruct (@every_command_restores (DeleteCommand d false start end_ [])
                w _ w1 Hex w1 eq_refl (ed_read_only Hed))
      as (c'' & w2 & Hun & Hc & _).
    exists d, w1, c'', w2. split; [exact Hex|].
    split; [exact (ed_content Hed)|]. split; [exact Hun|].
    split; [|exact Hc].
    cbn [Command.undo] in Hun.
    destruct (delete_undo_spec d true start end_ removed w1)
      as (ok & w2' & Hun' & Hs).
    rewrite Hun in Hun'. injection Hun' as <- _ <-.
    destruct Hs as (_ & _ & Hed'). exact (ed_content Hed').
  - destruct Hs as ([Hro' | Hnv] & _); [congruence | now elim Hnv].
Qed.

(** ** Scenarios of the history *)

Lemma pushed_shape (m : CommandManager) (h : list Command) (i : Z)
    (c' : Command) :
  history m = h -> current_index m = i ->
  -1 <= i <= len h - 1 -> i + 2 <= max_history m ->
  history (pushed m c') = firstn (Z.to_nat (i + 1)) h ++ [c']
  /\ current_index (pushed m c') = i + 1
  /\ max_history (pushed m c') = max_history m.
Proof.
  intros Hh Hi Hrange Hmax. unfold pushed. rewrite Hh, Hi.
  set (history1 := if i <? len h - 1 then _ else _).
  assert (H1 : history1 = firstn (Z.to_nat (i + 1)) h).
  { subst history1. destruct (Z.ltb_spec i (len h - 1)).
    - apply slice_to_in_range. lia.
    - symmetry. apply firstn_all2. unfold len in *. lia. }
  assert (H2 : len (history1 ++ [c']) = i + 2).
  { rewrite H1, len_app, len_firstn_in_range by lia. cbn. lia. }
  destruct (Z.gtb_spec (len (history1 ++ [c'])) (max_history m)); [lia|].
  cbn. rewrite H1. now repeat split.
Qed.

Lemma manager_execute_true (c : Command) (w w' : World) :
  CommandManager.execute c w = (Returned true, w') ->
  exists c' w1,
    Command.execute c w = (Returned (true, c'), w1)
    /\ advanced w w1
    /\ w' = with_command_manager (pushed (command_manager w) c') w1.
Proof.
  intros Hex.
  destruct (manager_execute_run c w) as (ok & c' & w1 & Hc & Ha & Hm).
  rewrite Hm in Hex. injection Hex as -> <-. eauto.
Qed.

(** Undoing, through the manager, the command the cursor is at, when
    nothing has touched the content since that command was executed. *)
Lemma manager_undo_executed (c c' : Command) (w w1 w2 : World) :
  Command.execute c w = (Returned (true, c'), w1) ->
  content (document w2) = content (document w1) ->
  read_only (document w2) = read_only (document w) ->
  CommandManager.can_undo (command_manager w2) = true ->
  index (history (command_manager w2)) (current_index (command_manager w2))
  = Some c' ->
  exists c'' w3,
    Command.undo c' w2 = (Returned (true, c''), w3)
    /\ content (document w3) = content (document w)
    /\ advanced w2 w3
    /\ CommandManager.undo w2
       = (Returned true,
          with_command_manager
            (revisited (command_manager w2)
               (current_index (command_manager w2)) c''
               (current_index (command_manager w2) - 1))
            w3).
Proof.
  intros Hex Hc Hr Hcan Hidx.
  destruct (@every_command_restores c w c' w1 Hex w2 Hc Hr)
    as (c'' & w3 & Hun & Hc3 & Ha).
  exists c'', w3. split; [exact Hun|]. split; [exact Hc3|].
  split; [exact Ha|].
  destruct (@manager_undo_run w2 c' Hcan Hidx) as (ok & k & w3' & Hun' & _ & ->).
  rewrite Hun in Hun'. injection Hun' as <- <- <-. reflexivity.
Qed.

(** C3, as the code has it.  A manager with room for at least three
    commands executes [A], [B], [C] with success, so that the cursor is at
    [C].  Then [undo()]
    returns [True] and moves the cursor to [B]; and once a new command [D]
    has been executed with success, the history is [A, B, D] (each as its
    own [execute] left it) with the cursor at [D], [C] is gone, and [redo()]
    returns [False] and changes nothing. *)
Theorem redo_branch_discarded (n : option Z) (A B C D : Command)
    (w0 w1 w2 w3 w4 w5 : World) (u : Result bool) :
  command_manager w0 = CommandManager.new n ->
  3 <= max_history (command_manager w0) ->
  CommandManager.execute A w0 = (Returned true, w1) ->
  CommandManager.execute B w1 = (Returned true, w2) ->
  CommandManager.execute C w2 = (Returned true, w3) ->
  CommandManager.undo w3 = (u, w4) ->
  CommandManager.execute D w4 = (Returned true, w5) ->
  u = Returned true
  /\ current_index (command_manager w4) = 1
  /\ CommandManager.redo w5 = (Returned false, w5)
  /\ exists A' B' D',
       history (command_manager w5) = [A'; B'; D']
       /\ current_index (command_manager w5) = 2
       /\ fst (Command.execute A w0) = Returned (true, A')
       /\ fst (Command.execute B w1) = Returned (true, B')
       /\ fst (Command.execute D w4) = Returned (true, D').
Proof.
  intros Hnew Hmax HA HB HC HU HD.
  destruct (manager_execute_true _ _ _ HA) as (A' & wA & HexA & HaA & ->).
  set (m1 := pushed (command_manager w0) A') in *.
  destruct (@pushed_shape (command_manager w0) [] (-1) A')
    as (Hh1 & Hi1 & Hm1); [now rewrite Hnew .. | cbn; lia | lia |].
  change (history m1 = [A']) in Hh1. change (current_index m1 = 0) in Hi1.
  fold m1 in Hm1.
  destruct (manager_execute_true _ _ _ HB) as (B' & wB & HexB & HaB & ->).
  cbn [command_manager with_command_manager] in *.
  set (m2 := pushed m1 B') in *.
  destruct (@pushed_shape m1 [A'] 0 B')
    as (Hh2 & Hi2 & Hm2); [assumption .. | cbn; lia | lia |].
  change (history m2 = [A'; B']) in Hh2. change (current_index m2 = 1) in Hi2.
  fold m2 in Hm2.
  destruct (manager_execute_true _ _ _ HC) as (C' & wC & HexC & HaC & ->).
  cbn [command_manager with_command_manager] in *.
  set (m3 := pushed m2 C') in *.
  destruct (@pushed_shape m2 [A'; B'] 1 C')
    as (Hh3 & Hi3 & Hm3); [assumption .. | cbn; lia | lia |].
  change (history m3 = [A'; B'; C']) in Hh3.
  change (current_index m3 = 2) in Hi3. fold m3 in Hm3.
  destruct (@manager_undo_executed C C' _ wC
              (with_command_manager m3 wC) HexC eq_refl)
    as (C'' & w4' & _ & _ & Ha4 & HU').
  { cbn. apply HaC. }
  { cbn. unfold CommandManager.can_undo. now rewrite Hi3. }
  { cbn. now rewrite Hh3, Hi3. }
  rewrite HU' in HU. injection HU as <- <-.
  cbn [command_manager with_command_manager] in *.
  rewrite Hi3 in *.
  split; [reflexivity|]. split; [reflexivity|].
  destruct (manager_execute_true _ _ _ HD) as (D' & wD & HexD & HaD & ->).
  set (m4 := revisited m3 2 C'' (2 - 1)) in *.
  destruct (@pushed_shape m4 [A'; B'; C''] 1 D')
    as (Hh5 & Hi5 & Hm5);
    [ subst m4; unfold revisited; cbn; now rewrite Hh3
    | reflexivity | cbn; lia | cbn; lia |].
  split.
  - unfold CommandManager.redo, CommandManager.can_redo. run.
    rewrite Hh5, Hi5. reflexivity.
  - exists A', B', D'. cbn [command_manager with_command_manager].
    rewrite Hh5, Hi5, HexA, HexB, HexD. now repeat split.
Qed.

(** C4, as the code has it.  With a maximum history of 2, executing [A],
    [B], [C] with success leaves the history [B, C] with the cursor at [C].
    From there [undo()] returns [True] twice: the first takes the content
    back to what it was after [B] and leaves [can_undo()] true, the second
    takes it back to what it was after [A]; only then is [can_undo()] false,
    and a third [undo()] returns [False] and changes nothing. *)
Theorem bounded_history_two_undos (A B C : Command) (w0 w1 w2 w3 : World) :
  command_manager w0 = CommandManager.new (Some 2) ->
  CommandManager.execute A w0 = (Returned true, w1) ->
  CommandManager.execute B w1 = (Returned true, w2) ->
  CommandManager.execute C w2 = (Returned true, w3) ->
  (exists B' C',
      history (command_manager w3) = [B'; C']
      /\ current_index (command_manager w3) = 1
      /\ fst (Command.execute B w1) = Returned (true, B')
      /\ fst (Command.execute C w2) = Returned (true, C'))
  /\ exists w4 w5,
       CommandManager.undo w3 = (Returned true, w4)
       /\ content (document w4) = content (document w2)
       /\ CommandManager.can_undo (command_manager w4) = true
       /\ CommandManager.undo w4 = (Returned true, w5)
       /\ content (document w5) = content (document w1)
       /\ CommandManager.can_undo (command_manager w5) = false
       /\ CommandManager.undo w5 = (Returned false, w5).
Proof.
  intros Hnew HA HB HC.
  destruct (manager_execute_true _ _ _ HA) as (A' & wA & HexA & HaA & ->).
  destruct (manager_execute_true _ _ _ HB) as (B' & wB & HexB & HaB & ->).
  destruct (manager_execute_true _ _ _ HC) as (C' & wC & HexC & HaC & ->).
  cbn [command_manager with_command_manager] in *.
  rewrite Hnew in *.
  change (pushed (pushed (pushed (CommandManager.new (Some 2)) A') B') C')
    with (mkCommandManager [B'; C'] 1 2) in *.
  set (m1 := pushed (CommandManager.new (Some 2)) A') in *.
  set (m2 := pushed m1 B') in *.
  set (m3 := mkCommandManager [B'; C'] 1 2).
  split.
  { exists B', C'. rewrite HexB, HexC. now repeat split. }
  destruct (@manager_undo_executed C C' _ wC
              (with_command_manager m3 wC) HexC eq_refl)
    as (C'' & w4 & _ & Hc4 & Ha4 & HU1);
    [cbn; apply HaC | reflexivity | reflexivity |].
  cbn [command_manager with_command_manager current_index] in HU1.
  change (revisited m3 1 C'' (1 - 1))
    with (mkCommandManager [B'; C''] 0 2) in HU1.
  set (m4 := mkCommandManager [B'; C''] 0 2) in *.
  destruct (@manager_undo_executed B B' _ wB
              (with_command_manager m4 w4) HexB)
    as (B'' & w5 & _ & Hc5 & Ha5 & HU2);
    [exact Hc4 | | reflexivity | reflexivity |].
  { cbn. rewrite (adv_read_only Ha4). cbn.
    rewrite (adv_read_only HaC). cbn. apply HaB. }
  cbn [command_manager with_command_manager current_index] in HU2.
  change (revisited m4 0 B'' (0 - 1))
    with (mkCommandManager [B''; C''] (-1) 2) in HU2.
  do 2 eexists. split; [exact HU1|].
  split; [exact Hc4|]. split; [reflexivity|]. split; [exact HU2|].
  split; [exact Hc5|]. split; reflexivity.
Qed.

(** ** Rejected calls *)

(** C5, as the code has it.  A [get_text] or [delete] whose range is not
    [0 <= start <= end <= len(content)], and an [insert] whose position is
    not in [0, len(content)], raise and leave the whole world as it was:
    content, flags, edit counter, and no observer called.  [get_text]
    raises the range error; [delete] and [insert] raise it on a document
    that is not read-only, and a [RuntimeError] on one that is, since that
    check comes first; its message is the read-only message of the call,
    which [delete] spells in its own way. *)
Theorem out_of_range_calls_change_nothing (w : World) :
  let c := content (document w) in
  let rejection (read_only_error range_error : string) : Exn :=
    if read_only (document w)
    then RuntimeError read_only_error
    else ValueError range_error in
  (forall start end_,
      ~ (0 <= start <= end_ /\ end_ <= len c) ->
      Document.get_text start end_ w
      = (Raised (ValueError (Document.invalid_range start end_)), w))
  /\ (forall start end_ notify,
        ~ (0 <= start <= end_ /\ end_ <= len c) ->
        Document.delete start end_ notify w
        = (Raised
             (rejection Document.delete_read_only_message
                (Document.invalid_range start end_)),
           w))
  /\ (forall position text notify,
        ~ (0 <= position <= len c) ->
        Document.insert position text notify w
        = (Raised
             (rejection Document.read_only_message
                (Document.invalid_position position)),
           w)).
Proof.
  intros c rejection. subst rejection. split; [|split].
  - intros start end_ Hbad.
    pose proof (get_text_spec start end_ w) as Hs. cbn zeta in Hs.
    destruct (Document.get_text start end_ w) as [[t|e] w'].
    + now destruct Hs as (_ & Hv & _).
    + now destruct Hs as (-> & _ & ->).
  - intros start end_ notify Hbad.
    pose proof (delete_spec start end_ notify w) as Hs. cbn zeta in Hs.
    destruct (Document.delete start end_ notify w) as [[[]|e] w'].
    + now destruct Hs as (_ & Hv & _).
    + destruct Hs as (-> & Hs).
      destruct (read_only (document w)); [now subst|].
      now destruct Hs as (_ & ->).
  - intros position text notify Hbad.
    pose proof (insert_spec position text notify w) as Hs. cbn zeta in Hs.
    destruct (Document.insert position text notify w) as [[[]|e] w'].
    + now destruct Hs as (_ & Hv & _).
    + destruct Hs as (-> & Hs).
      destruct (read_only (document w)); [now subst|].
      now destruct Hs as (_ & ->).
Qed.

(** C6, as the code has it.  On a read-only document [insert], [delete],
    [set_content] and [clear] raise a [RuntimeError] and leave the whole
    world as it was: no field of the document changes and no observer is
    called.  The message is the read-only message, which [delete] spells in
    its own way. *)
Theorem read_only_rejects_edits (w : World) :
  read_only (document w) = true ->
  let rejected (message : string) := (Raised (RuntimeError message), w) in
  (forall position text notify,
      Document.insert position text notify w
      = rejected Document.read_only_message)
  /\ (forall start end_ notify,
        Document.delete start end_ notify w
        = rejected Document.delete_read_only_message)
  /\ (forall content notify,
        Document.set_content content notify w
        = rejected Document.read_only_message)
  /\ (forall notify,
        Document.clear notify w = rejected Document.read_only_message).
Proof.
  intros Hro rejected. subst rejected.
  unfold Document.clear, Document.insert, Document.delete,
    Document.set_content.
  run. rewrite Hro. now repeat split.
Qed.

(** ** The edit counter *)

Lemma perform_edit_count (call : Call) (w : World) :
  is_reset call = false ->
  edit_count (document w) <= edit_count (document (snd (perform call w))).
Proof.
  intros Hreset. destruct call; try discriminate; cbn [perform].
  - pose proof (set_content_spec content0 notify w) as Hs.
    destruct (Document.set_content content0 notify w) as [[[]|e] w']; cbn.
    + destruct Hs as (_ & Hed). rewrite (ed_edit_count Hed). lia.
    + destruct Hs as (-> & _). lia.
  - pose proof (insert_spec position text notify w) as Hs. cbn zeta in Hs.
    destruct (Document.insert position text notify w) as [[[]|e] w']; cbn.
    + destruct Hs as (_ & _ & Hed). rewrite (ed_edit_count Hed). lia.
    + destruct Hs as (-> & _). lia.
  - pose proof (delete_spec start end_ notify w) as Hs. cbn zeta in Hs.
    destruct (Document.delete start end_ notify w) as [[[]|e] w']; cbn.
    + destruct Hs as (_ & _ & Hed). rewrite (ed_edit_count Hed). lia.
    + destruct Hs as (-> & _). lia.
  - run. pose proof (get_text_spec start end_ w) as Hs. cbn zeta in Hs.
    destruct (Document.get_text start end_ w) as [[t|e] w']; cbn;
      destruct Hs as (-> & _); lia.
  - destruct (load_from_file_spec filepath0 content0 w)
      as (_ & _ & _ & _ & -> & _). lia.
  - destruct (mark_as_saved_spec filepath0 w) as (_ & _ & _ & -> & _). lia.
  - cbn. lia.
  - unfold Document.clear.
    pose proof (set_content_spec [] notify w) as Hs.
    destruct (Document.set_content [] notify w) as [[[]|e] w']; cbn.
    + destruct Hs as (_ & Hed). rewrite (ed_edit_count Hed). lia.
    + destruct Hs as (-> & _). lia.
  - run.
    destruct (manager_execute_run command w) as (ok & c' & w1 & _ & Ha & ->).
    destruct ok; cbn; apply Ha.
  - run. unfold CommandManager.undo. run.
    destruct (CommandManager.can_undo (command_manager w)) eqn:Hcan;
      cbn [negb]; [|cbn; lia].
    destruct (index _ _) as [c|] eqn:Hidx; [|cbn; lia].
    destruct (@manager_undo_run w c Hcan Hidx) as (ok & c' & w1 & Hun & Ha & _).
    rewrite Hun. destruct ok; cbn; apply Ha.
  - run. unfold CommandManager.redo. run.
    destruct (CommandManager.can_redo (command_manager w)) eqn:Hcan;
      cbn [negb]; [|cbn; lia].
    destruct (index _ _) as [c|] eqn:Hidx; [|cbn; lia].
    destruct (@manager_redo_run w c Hcan Hidx) as (ok & c' & w1 & Hex & Ha & _).
    rewrite Hex. destruct ok; cbn; apply Ha.
  - cbn. lia.
Qed.

Lemma perform_edit (call : Call) (w : World) :
  edits_content call = true ->
  fst (perform call w) = Returned tt ->
  edit_count (document (snd (perform call w))) = edit_count (document w) + 1.
Proof.
  intros Hedit. destruct call; try discriminate; cbn [perform].
  - pose proof (set_content_spec content0 notify w) as Hs.
    destruct (Document.set_content content0 notify w) as [[[]|e] w']; cbn;
      [|discriminate].
    intros _. destruct Hs as (_ & Hed). exact (ed_edit_count Hed).
  - pose proof (insert_spec position text notify w) as Hs. cbn zeta in Hs.
    destruct (Document.insert position text notify w) as [[[]|e] w']; cbn;
      [|discriminate].
    intros _. destruct Hs as (_ & _ & Hed). exact (ed_edit_count Hed).
  - pose proof (delete_spec start end_ notify w) as Hs. cbn zeta in Hs.
    destruct (Document.delete start end_ notify w) as [[[]|e] w']; cbn;
      [|discriminate].
    intros _. destruct Hs as (_ & _ & Hed). exact (ed_edit_count Hed).
  - unfold Document.clear.
    pose proof (set_content_spec [] notify w) as Hs.
    destruct (Document.set_content [] notify w) as [[[]|e] w']; cbn;
      [|discriminate].
    intros _. destruct Hs as (_ & Hed). exact (ed_edit_count Hed).
Qed.

(** C7, as the code has it.  Across any sequence of calls on the document
    and its history in which there is no [reset] (edits, reads, loads,
    saves, executes, undos and redos, failed or not), the edit counter does
    not decrease; a successful [insert], [delete], [set_content] or [clear]
    increases it by exactly one; and a successful [reset] sets it to 0. *)
Theorem edit_count_without_reset (calls : list Call) (w : World) :
  forallb (fun c => negb (is_reset c)) calls = true ->
  edit_count (document w) <= edit_count (document (perform_all calls w))
  /\ (forall call,
        edits_content call = true ->
        fst (perform call w) = Returned tt ->
        edit_count (document (snd (perform call w)))
        = edit_count (document w) + 1)
  /\ (fst (Document.reset w) = Returned tt ->
      edit_count (document (snd (Document.reset w))) = 0).
Proof.
  intros Hcalls. split; [|split].
  - revert w. induction calls as [|call rest IH]; intros w; cbn; [lia|].
    cbn in Hcalls. apply andb_prop in Hcalls as (Hcall & Hrest).
    apply negb_true_iff in Hcall.
    pose proof (perform_edit_count call w Hcall).
    specialize (IH Hrest (snd (perform call w))). lia.
  - intros call. apply perform_edit.
  - pose proof (reset_spec w) as Hs.
    destruct (Document.reset w) as [[[]|e] w']; cbn; [|discriminate].
    intros _. apply Hs.
Qed.

(** ** Delivery to the observers *)

Lemma to_deliveries_of (os : list Observer) (event_type : string)
    (data : EventData) :
  List.map to (deliveries_of os event_type data) = List.filter enabled os.
Proof.
  unfold deliveries_of. rewrite List.map_map. cbn. apply List.map_id.
Qed.

(** C8.  Whatever the observers attached and whatever any of them raises,
    [notify(event_type, data)] returns, and the calls of [update] it makes
    are exactly one per enabled observer, in the order of attachment, each
    with the event; an insert, a delete or a replacement of the content
    that passes its own checks therefore returns as well, with all of these
    calls made, and the command that wraps it reports [True]. *)
Theorem every_enabled_observer_notified (w : World) (event_type : string)
    (data : EventData) :
  let sent := deliveries_of (observers (document w)) in
  (fst (Subject.notify event_type data w) = Returned tt
   /\ deliveries (snd (Subject.notify event_type data w))
      = deliveries w ++ sent event_type data
   /\ List.map to (sent event_type data)
      = List.filter enabled (observers (document w))
   /\ untouched w (snd (Subject.notify event_type data w)))
  /\ (read_only (document w) = false ->
      (forall position text,
          0 <= position <= len (content (document w)) ->
          let r := Document.insert position text true w in
          fst r = Returned tt
          /\ deliveries (snd r)
             = deliveries w
               ++ sent "content_changed"%string
                    (InsertData position text (len text))
          /\ exists c',
               fst (Command.execute (InsertCommand.new position text) w)
               = Returned (true, c'))
      /\ (forall start end_,
            0 <= start <= end_ /\ end_ <= len (content (document w)) ->
            let removed := slice (content (document w)) start end_ in
            let r := Document.delete start end_ true w in
            fst r = Returned tt
            /\ deliveries (snd r)
               = deliveries w
                 ++ sent "content_changed"%string
                      (DeleteData start end_ removed (len removed))
            /\ exists c',
                 fst (Command.execute (DeleteCommand.new start end_) w)
                 = Returned (true, c'))
      /\ (forall new_content,
            let r := Document.set_content new_content true w in
            fst r = Returned tt
            /\ deliveries (snd r)
               = deliveries w
                 ++ sent "content_changed"%string
                      (FullReplace (content (document w)) new_content))).
Proof.
  intros sent. subst sent. split.
  - destruct (notify_spec event_type data w) as (Hret & Hu & Hd).
    split; [exact Hret|]. split; [exact Hd|].
    split; [apply to_deliveries_of | exact Hu].
  - intros Hro. split; [|split].
    + intros position text Hpos. cbn zeta.
      pose proof (insert_spec position text true w) as Hs. cbn zeta in Hs.
      destruct (Document.insert position text true w) as [[[]|e] w'] eqn:Hins.
      * destruct Hs as (_ & _ & Hed). split; [reflexivity|].
        split; [exact (ed_deliveries Hed)|].
        cbn [Command.execute InsertCommand.new]. unfold InsertCommand.execute.
        run. rewrite Hins. eexists. reflexivity.
      * destruct Hs as (_ & Hs). rewrite Hro in Hs. now destruct Hs.
    + intros start end_ Hrange. cbn zeta.
      pose proof (delete_spec start end_ true w) as Hs. cbn zeta in Hs.
      destruct (Document.delete start end_ true w) as [[[]|e] w'] eqn:Hdel.
      * destruct Hs as (_ & _ & Hed). split; [reflexivity|].
        split; [exact (ed_deliveries Hed)|].
        cbn [Command.execute DeleteCommand.new]. unfold DeleteCommand.execute.
        run.
        pose proof (get_text_spec start end_ w) as Hg. cbn zeta in Hg.
        destruct (Document.get_text start end_ w) as [[t|e] w1].
        -- destruct Hg as (-> & _ & ->). rewrite Hdel. eexists. reflexivity.
        -- now destruct Hg as (_ & Hbad & _).
      * destruct Hs as (_ & Hs). rewrite Hro in Hs. now destruct Hs.
    + intros new_content. cbn zeta.
      pose proof (set_content_spec new_content true w) as Hs.
      destruct (Document.set_content new_content true w) as [[[]|e] w'].
      * destruct Hs as (_ & Hed). split; [reflexivity|].
        exact (ed_deliveries Hed).
      * destruct Hs as (_ & Hro' & _). congruence.
Qed.

(** ** Validation *)






End Properties.

(** * Further properties *)

Section Further.
Context `{Collaborators}.

Ltac run_py :=
  unfold bind, ret, raise, try_except, get_document, put_document,
    get_manager, put_manager, print, record_delivery, now,
    with_document, with_command_manager, with_validation_result,
    with_observers in *;
  cbn [fst snd document command_manager clock_reads deliveries stdout
       filepath content modified created_time modified_time read_only
       edit_count last_validation_result observers] in *.

(** ** Composite commands *)

Lemma execute_all_failure (cs : list Command) (w w' : World)
    (cs' : list Command) :
  execute_all cs w = (Returned (false, cs'), w') ->
  exists done failed rest done' failed' w1,
    cs = done ++ failed :: rest
    /\ cs' = done' ++ failed' :: rest
    /\ execute_all done w = (Returned (true, done'), w1)
    /\ Command.execute failed w1 = (Returned (false, failed'), w').
Proof.
  revert w cs'. induction cs as [|c rest IH]; intros w cs' Hex;
    cbn [execute_all] in Hex; run_py; [discriminate|].
  destruct (execute_total c w) as (ok & c' & w1 & Hc & _).
  rewrite Hc in Hex. destruct ok.
  - destruct (execute_all rest w1) as [[[ok rest']|e] w2] eqn:Hrest;
      [|discriminate].
    injection Hex as -> <- <-.
    destruct (IH _ _ Hrest)
      as (done & failed & tl & done' & failed' & w3 & -> & -> & Hd & Hf).
    exists (c :: done), failed, tl, (c' :: done'), failed', w3.
    repeat split; trivial.
    cbn [execute_all]. run_py. rewrite Hc, Hd. reflexivity.
  - injection Hex as <- <-.
    exists [], c, rest, [], c', w. repeat split; trivial.
Qed.

(** A composite whose [execute] returns [False] has run its children in
    order up to the first that failed and stopped there: the children
    before it stay executed and their edits stay in the document, the
    children after it are not touched, and the [executed] flag of the
    composite is what it was. *)
Theorem composite_failure_is_not_rolled_back (d : string) (x : bool)
    (cs : list Command) (w w' : World) (c' : Command) :
  Command.execute (CompositeCommand d x cs) w = (Returned (false, c'), w') ->
  exists done failed rest done' failed' w1,
    cs = done ++ failed :: rest
    /\ c' = CompositeCommand d x (done' ++ failed' :: rest)
    /\ execute_all done w = (Returned (true, done'), w1)
    /\ Command.execute failed w1 = (Returned (false, failed'), w').
Proof.
  intros Hex. rewrite execute_composite in Hex. run_py.
  destruct (execute_all cs w) as [[[ok cs']|e] w1] eqn:Hall; [|discriminate].
  injection Hex as -> <- <-.
  destruct (execute_all_failure _ _ _ _ Hall)
    as (done & failed & rest & done' & failed' & w2 & -> & -> & Hd & Hf).
  exists done, failed, rest, done', failed', w2. now repeat split.
Qed.

(** A composite that [execute] has run to the end is taken back as a whole
    by [undo]: the content is what it was before, and the [executed] flag
    goes to [True] and back to [False]. *)
Theorem composite_undo_restores_content (d : string) (x : bool)
    (cs : list Command) (w w1 : World) (c1 : Command) :
  Command.execute (CompositeCommand d x cs) w = (Returned (true, c1), w1) ->
  Command.executed c1 = true
  /\ exists c2 w2,
       Command.undo c1 w1 = (Returned (true, c2), w2)
       /\ Command.executed c2 = false
       /\ content (document w2) = content (document w).
Proof.
  intros Hex.
  destruct (every_command_restores (CompositeCommand d x cs) w c1 w1 Hex w1
              eq_refl)
    as (c2 & w2 & Hun & Hc & _).
  { destruct (execute_total (CompositeCommand d x cs) w)
      as (ok & k & w0 & Heq & Ha).
    rewrite Hex in Heq. injection Heq as _ _ <-. apply Ha. }
  rewrite execute_composite in Hex. run_py.
  destruct (execute_all cs w) as [[[ok cs']|e] w0]; [|discriminate].
  injection Hex as -> <- <-.
  split; [reflexivity|].
  exists c2, w2. split; [exact Hun|]. split; [|exact Hc].
  rewrite undo_composite in Hun. run_py.
  destruct (undo_all cs' w0) as [[[ok cs'']|e] w3]; [|discriminate].
  injection Hun as -> <- _. reflexivity.
Qed.

(** ** What the history records *)

Lemma execute_description (c : Command) (w : World) :
  forall ok c' w',
    Command.execute c w = (Returned (ok, c'), w') ->
    Command.description c' = Command.description c.
Proof.
  destruct c as [d x p t | d x s e t | d x cs]; intros ok c' w' Hex.
  - destruct (insert_execute_spec d x p t w) as (ok' & w1 & Heq & _).
    cbn [Command.execute] in Hex. rewrite Heq in Hex.
    now injection Hex as _ <- _.
  - destruct (delete_execute_spec d x s e t w) as (ok' & cap & w1 & Heq & _).
    cbn [Command.execute] in Hex. rewrite Heq in Hex.
    now injection Hex as _ <- _.
  - rewrite execute_composite in Hex. run_py.
    destruct (execute_all cs w) as [[[ok' cs']|e] w1]; [|discriminate].
    now injection Hex as _ <- _.
Qed.

Lemma pushed_general (m : CommandManager) (c' : Command) :
  1 <= max_history m -> history_invariant m ->
  let i := current_index m in
  let k := evicted i (max_history m) in
  pushed m c'
  = mkCommandManager
      (skipn (Z.to_nat k) (firstn (Z.to_nat (i + 1)) (history m) ++ [c']))
      (i + 1 - k) (max_history m).
Proof.
  intros Hmax ((Hlo & Hhi) & Hlen) i k. subst i k. unfold pushed, evicted.
  set (i := current_index m) in *. set (h := history m) in *.
  set (history1 := if i <? len h - 1 then _ else _).
  assert (H1 : history1 = firstn (Z.to_nat (i + 1)) h).
  { subst history1. destruct (Z.ltb_spec i (len h - 1)).
    - apply slice_to_in_range. lia.
    - symmetry. apply firstn_all2. unfold len in *. lia. }
  assert (H2 : len (history1 ++ [c']) = i + 2).
  { rewrite H1, len_app, len_firstn_in_range by lia. cbn. lia. }
  rewrite H2.
  destruct (Z.gtb_spec (i + 2) (max_history m)).
  - rewrite slice_from_in_range by lia.
    rewrite Z.max_r by lia. rewrite H1. f_equal; lia.
  - rewrite Z.max_l by lia. rewrite H1. cbn [Z.to_nat skipn]. f_equal; lia.
Qed.

Lemma pushed_last (m : CommandManager) (c' : Command) :
  1 <= max_history m -> history_invariant m ->
  exists before,
    history (pushed m c') = before ++ [c']
    /\ current_index (pushed m c') = len before.
Proof.
  intros Hmax Hinv. rewrite pushed_general by assumption. cbn zeta.
  destruct Hinv as ((Hlo & Hhi) & Hlen). unfold evicted.
  set (i := current_index m) in *. set (k := Z.max 0 (i + 2 - max_history m)).
  assert (Hk : 0 <= k <= i + 1) by lia.
  assert (Hl : len (firstn (Z.to_nat (i + 1)) (history m)) = i + 1)
    by (apply len_firstn_in_range; lia).
  exists (skipn (Z.to_nat k) (firstn (Z.to_nat (i + 1)) (history m))).
  cbn [history current_index]. split.
  - rewrite skipn_app.
    replace (Z.to_nat k - List.length (firstn (Z.to_nat (i + 1)) (history m)))%nat
      with 0%nat by (unfold len in Hl; lia).
    reflexivity.
  - rewrite len_skipn_in_range by lia. lia.
Qed.

Lemma index_last {A} (before : list A) (x : A) :
  index (before ++ [x]) (len before) = Some x.
Proof.
  unfold index. rewrite len_app. pose proof (len_nonneg before). cbn.
  destruct (Z.ltb_spec (len before) (- (len before + 1))); [lia|].
  destruct (Z.leb_spec (len before + 1) (len before)); [lia|]. cbn [orb].
  destruct (Z.ltb_spec (len before) 0); [lia|].
  unfold len. rewrite Nat2Z.id, nth_error_app2, Nat.sub_diag by lia.
  reflexivity.
Qed.

Lemma list_set_last {A} (before : list A) (x y : A) :
  list_set (before ++ [x]) (index_nat (before ++ [x]) (len before)) y
  = before ++ [y].
Proof.
  unfold index_nat. pose proof (len_nonneg before).
  destruct (Z.ltb_spec (len before) 0); [lia|].
  unfold len. rewrite Nat2Z.id. clear.
  induction before as [|a before IH]; cbn; [reflexivity | now rewrite IH].
Qed.

Lemma delete_execute_failed (d : string) (x : bool) (start end_ : Z)
    (deleted_text : Text) (w w' : World) (c' : Command) :
  DeleteCommand.execute d x start end_ deleted_text w
  = (Returned (false, c'), w') ->
  only_printed w w'
  /\ c' = DeleteCommand d x start end_
            (if (start <? 0) || (end_ >? len (content (document w)))
                || (start >? end_)
             then deleted_text
             else slice (content (document w)) start end_).
Proof.
  intros Hex. unfold DeleteCommand.execute, Document.get_text in Hex. run_py.
  destruct ((start <? 0) || (end_ >? len (content (document w)))
            || (start >? end_)) eqn:Hguard.
  - injection Hex as <- <-. split; [now constructor | reflexivity].
  - pose proof (delete_spec start end_ true w) as Hs. cbn zeta in Hs.
    destruct (Document.delete start end_ true w) as [[[]|e] w1].
    + discriminate.
    + destruct Hs as (-> & _). injection Hex as <- <-.
      split; [now constructor | reflexivity].
Qed.

(** A command whose [execute] returns [False] is not recorded: the history
    and the cursor are what they were, and the manager has done nothing
    but run the command.  When the command is an insert or a delete, the
    world has not changed but for the printed message; an insert command is
    left as it was, and a delete command is left as it was but for its
    [deleted_text], which holds the text of the range when the range is
    valid, the delete having then failed on the read-only check. *)
Theorem failed_command_is_not_recorded (c : Command) (w w' : World) :
  CommandManager.execute c w = (Returned false, w') ->
  command_manager w' = command_manager w
  /\ exists c',
       Command.execute c w = (Returned (false, c'), w')
       /\ (is_simple c = true ->
           only_printed w w'
           /\ c' = match c with
                   | DeleteCommand d x start end_ deleted_text =>
                       DeleteCommand d x start end_
                         (if (start <? 0)
                             || (end_ >? len (content (document w)))
                             || (start >? end_)
                          then deleted_text
                          else slice (content (document w)) start end_)
                   | _ => c
                   end).
Proof.
  intros Hex.
  destruct (manager_execute_run c w) as (ok & c' & w1 & Hc & Ha & Hm).
  rewrite Hm in Hex. injection Hex as -> <-.
  split; [apply Ha|]. exists c'. split; [exact Hc|].
  destruct c as [d x p t | d x s e t | d x cs]; [| |discriminate]; intros _;
    cbn [Command.execute] in Hc.
  - destruct (insert_execute_spec d x p t w) as (ok & w2 & Heq & Hs).
    rewrite Heq in Hc. injection Hc as -> <- ->. split; [apply Hs | reflexivity].
  - exact (delete_execute_failed _ _ _ _ _ _ _ _ Hc).
Qed.

(** After an [execute] that returned [True], on a history that satisfies
    its invariant, the cursor is at the new command, which is the last
    entry: [can_undo()] is true, [can_redo()] is false, the undo
    description is the description of the command and there is no redo
    description. *)
Theorem executed_command_is_next_to_undo (c : Command) (w w' : World) :
  1 <= max_history (command_manager w) ->
  history_invariant (command_manager w) ->
  CommandManager.execute c w = (Returned true, w') ->
  CommandManager.can_undo (command_manager w') = true
  /\ CommandManager.can_redo (command_manager w') = false
  /\ CommandManager.get_undo_description w'
     = (Returned (Some (Command.description c)), w')
  /\ CommandManager.get_redo_description w' = (Returned None, w').
Proof.
  intros Hmax Hinv Hex.
  destruct (manager_execute_true _ _ _ Hex) as (c' & w1 & Hc & Ha & ->).
  destruct (pushed_last (command_manager w) c' Hmax Hinv)
    as (before & Hh & Hi).
  pose proof (len_nonneg before) as Hb.
  assert (Hcan : CommandManager.can_undo (pushed (command_manager w) c') = true).
  { unfold CommandManager.can_undo. rewrite Hi. apply Z.geb_le. lia. }
  assert (Hno : CommandManager.can_redo (pushed (command_manager w) c') = false).
  { unfold CommandManager.can_redo. rewrite Hi, Hh, len_app. cbn.
    apply Z.ltb_ge. lia. }
  split; [exact Hcan|]. split; [exact Hno|]. split.
  - unfold CommandManager.get_undo_description. run_py.
    rewrite Hcan, Hi, Hh, index_last.
    now rewrite (execute_description c w _ _ _ Hc).
  - unfold CommandManager.get_redo_description. run_py. now rewrite Hno.
Qed.


(** ** Redo gives back what undo took *)







(** ** Reading the buffer after an edit *)

Lemma slice_whole_prefix {A} (a b : list A) : slice (a ++ b) 0 (len a) = a.
Proof.
  pose proof (len_nonneg a). pose proof (len_nonneg b).
  rewrite slice_in_range by (rewrite ?len_app; lia).
  cbn [Z.to_nat skipn]. unfold len. rewrite Nat2Z.id.
  rewrite firstn_app, Nat.sub_diag, firstn_all. cbn. apply app_nil_r.
Qed.

Lemma slice_middle {A} (a t b : list A) :
  slice (a ++ t ++ b) (len a) (len a + len t) = t.
Proof.
  pose proof (len_nonneg a). pose proof (len_nonneg t).
  pose proof (len_nonneg b).
  rewrite slice_in_range by (rewrite ?len_app; lia).
  rewrite app_assoc.
  replace (Z.to_nat (len a + len t)) with (List.length (a ++ t))
    by (rewrite length_app; unfold len; lia).
  rewrite firstn_app, Nat.sub_diag, firstn_all. cbn [firstn].
  rewrite app_nil_r. unfold len. rewrite Nat2Z.id.
  rewrite skipn_app, skipn_all, Nat.sub_diag. reflexivity.
Qed.

Lemma slice_whole_suffix {A} (a b : list A) :
  slice (a ++ b) (len a) (len a + len b) = b.
Proof.
  pose proof (slice_middle a b []) as Hm. now rewrite app_nil_r in Hm.
Qed.

Lemma slice_to_is_slice {A} (l : list A) (i : Z) :
  0 <= i <= len l -> slice_to l i = slice l 0 i.
Proof.
  intros Hi. rewrite slice_to_in_range, slice_in_range by lia. reflexivity.
Qed.

Lemma slice_from_is_slice {A} (l : list A) (i : Z) :
  0 <= i <= len l -> slice_from l i = slice l i (len l).
Proof.
  intros Hi. rewrite slice_from_in_range, slice_in_range by lia.
  unfold len. rewrite Nat2Z.id, firstn_all. reflexivity.
Qed.

Lemma len_slice_to {A} (l : list A) (i : Z) :
  0 <= i <= len l -> len (slice_to l i) = i.
Proof.
  intros Hi. rewrite slice_to_in_range by assumption.
  now apply len_firstn_in_range.
Qed.

Lemma len_slice_from {A} (l : list A) (i : Z) :
  0 <= i <= len l -> len (slice_from l i) = len l - i.
Proof.
  intros Hi. rewrite slice_from_in_range by assumption.
  now apply len_skipn_in_range.
Qed.

Lemma slice_of_inserted {A} (l t : list A) (i : Z) :
  0 <= i <= len l ->
  let l' := slice_to l i ++ t ++ slice_from l i in
  slice l' i (i + len t) = t
  /\ slice l' 0 i = slice l 0 i
  /\ slice l' (i + len t) (len l + len t) = slice l i (len l).
Proof.
  intros Hi l'. subst l'.
  pose proof (len_slice_to l i Hi) as Hpre.
  pose proof (len_slice_from l i Hi) as Hpost.
  split; [|split].
  - pose proof (slice_middle (slice_to l i) t (slice_from l i)) as Hm.
    now rewrite Hpre in Hm.
  - pose proof (slice_whole_prefix (slice_to l i) (t ++ slice_from l i)) as Hm.
    rewrite Hpre in Hm. rewrite Hm. now apply slice_to_is_slice.
  - pose proof (slice_whole_suffix (slice_to l i ++ t) (slice_from l i)) as Hm.
    rewrite len_app, Hpre, Hpost, <- app_assoc in Hm.
    replace (i + len t + (len l - i)) with (len l + len t) in Hm by lia.
    rewrite Hm. now apply slice_from_is_slice.
Qed.

Lemma slice_of_deleted {A} (l : list A) (i j : Z) :
  0 <= i <= j -> j <= len l ->
  let l' := slice_to l i ++ slice_from l j in
  slice l' 0 i = slice l 0 i
  /\ slice l' i (len l - (j - i)) = slice l j (len l).
Proof.
  intros Hi Hj l'. subst l'.
  assert (Hpre : len (slice_to l i) = i) by (apply len_slice_to; lia).
  assert (Hpost : len (slice_from l j) = len l - j)
    by (apply len_slice_from; lia).
  split.
  - pose proof (slice_whole_prefix (slice_to l i) (slice_from l j)) as Hm.
    rewrite Hpre in Hm. rewrite Hm. apply slice_to_is_slice. lia.
  - pose proof (slice_whole_suffix (slice_to l i) (slice_from l j)) as Hm.
    rewrite Hpre, Hpost in Hm.
    replace (i + (len l - j)) with (len l - (j - i)) in Hm by lia.
    rewrite Hm. apply slice_from_is_slice. lia.
Qed.

Lemma get_text_in_range (start end_ : Z) (w : World) :
  valid_range (content (document w)) start end_ ->
  Document.get_text start end_ w
  = (Returned (slice (content (document w)) start end_), w).
Proof.
  intros Hv. pose proof (get_text_spec start end_ w) as Hs. cbn zeta in Hs.
  destruct (Document.get_text start end_ w) as [[t|e] w'].
  - now destruct Hs as (-> & _ & ->).
  - now destruct Hs as (_ & Hbad & _).
Qed.

(** After an [insert] that passes its checks, the size has grown by the
    length of the text, [get_text] over the inserted range returns the
    text, and the text before and after it is what was before and after
    the position. *)
Theorem inserted_text_is_read_back (w : World) (position : Z) (text : Text)
    (notify : bool) :
  read_only (document w) = false ->
  0 <= position <= len (content (document w)) ->
  let c := content (document w) in
  let w' := snd (Document.insert position text notify w) in
  let size' := Document.size (document w') in
  fst (Document.insert position text notify w) = Returned tt
  /\ size' = Document.size (document w) + len text
  /\ Document.get_text position (position + len text) w' = (Returned text, w')
  /\ Document.get_text 0 position w' = (Returned (slice c 0 position), w')
  /\ Document.get_text (position + len text) size' w'
     = (Returned (slice c position (len c)), w').
Proof.
  intros Hro Hpos c w' size'.
  pose proof (insert_spec position text notify w) as Hs. cbn zeta in Hs.
  subst size' w'.
  destruct (Document.insert position text notify w) as [[[]|e] w'];
    cbn [fst snd].
  - destruct Hs as (_ & _ & Hed). split; [reflexivity|].
    pose proof (len_nonneg text) as Ht. fold c in Hed, Hpos.
    assert (Hsize : len (content (document w')) = len c + len text)
      by (rewrite (ed_content Hed); now apply len_inserted).
    unfold Document.size. split; [exact Hsize|].
    destruct (slice_of_inserted c text position Hpos) as (Hmid & Hbefore & Hafter).
    rewrite !get_text_in_range by (unfold valid_range; rewrite ?Hsize; lia).
    rewrite Hsize, (ed_content Hed), Hmid, Hbefore, Hafter. now repeat split.
  - destruct Hs as (_ & Hs). rewrite Hro in Hs. now destruct Hs.
Qed.

(** After a [delete] that passes its checks, the size has shrunk by the
    length of the range, and what [get_text] reads before and after the
    start is what was before the start and after the end: nothing but the
    range is gone. *)
Theorem delete_removes_only_the_range (w : World) (start end_ : Z)
    (notify : bool) :
  read_only (document w) = false ->
  0 <= start <= end_ /\ end_ <= len (content (document w)) ->
  let c := content (document w) in
  let w' := snd (Document.delete start end_ notify w) in
  let size' := Document.size (document w') in
  fst (Document.delete start end_ notify w) = Returned tt
  /\ size' = Document.size (document w) - (end_ - start)
  /\ Document.get_text 0 start w' = (Returned (slice c 0 start), w')
  /\ Document.get_text start size' w' = (Returned (slice c end_ (len c)), w').
Proof.
  intros Hro Hrange c w' size'.
  pose proof (delete_spec start end_ notify w) as Hs. cbn zeta in Hs.
  subst size' w'.
  destruct (Document.delete start end_ notify w) as [[[]|e] w'];
    cbn [fst snd].
  - destruct Hs as (_ & _ & Hed). split; [reflexivity|]. fold c in Hrange, Hed.
    destruct Hrange as (Hr1 & Hr2).
    assert (Hsize : len (content (document w')) = len c - (end_ - start))
      by (rewrite (ed_content Hed); now apply len_deleted).
    unfold Document.size. split; [exact Hsize|].
    destruct (slice_of_deleted c start end_ Hr1 Hr2) as (Hbefore & Hafter).
    rewrite !get_text_in_range by (unfold valid_range; rewrite ?Hsize; lia).
    rewrite Hsize, (ed_content Hed), Hbefore, Hafter. now split.
  - destruct Hs as (_ & Hs). rewrite Hro in Hs.
    destruct Hs as (Hbad & _). now elim Hbad.
Qed.

(** ** The stored validation result *)

Lemma validate_verdict (v : ValidatorState) (w : World) :
  exists r v' w',
    ValidatorObserver.validate v w = (Returned (r, v'), w')
    /\ last_validation_result (document w') = Some r
    /\ is_valid r = verdict (content (document w))
    /\ untouched w w'.
Proof.
  unfold ValidatorObserver.validate, ValidatorObserver.parse_result,
    ValidatorObserver.new_result, verdict.
  run_py.
  destruct (strip (content (document w))) as [|ch rest]; cbn [truthy negb].
  - do 3 eexists. split; [reflexivity|]. cbn. now repeat split.
  - destruct (json_loads (ch :: rest)); cbn;
      (do 3 eexists; split; [reflexivity|]; cbn; now repeat split).
Qed.

Lemma deliver_cons (o : Observer) (rest : list Observer)
    (event_type : string) (data : EventData) (w : World) :
  exists o' w1,
    one_delivery o event_type data w = (Returned o', w1)
    /\ snd (Subject.deliver (o :: rest) event_type data w)
       = snd (Subject.deliver rest event_type data w1).
Proof.
  cbn [Subject.deliver]. fold (one_delivery o event_type data).
  assert (Hone : exists o' w1,
             one_delivery o event_type data w = (Returned o', w1)).
  { unfold one_delivery. destruct (enabled o); run_py; [|eauto].
    destruct (Observer.update o event_type data w) as [[o'|e] w1]; eauto. }
  destruct Hone as (o' & w1 & Hone). exists o', w1. split; [exact Hone|].
  unfold bind at 1. rewrite Hone. unfold bind, ret.
  destruct (Subject.deliver rest event_type data w1) as [[os'|e] w2];
    reflexivity.
Qed.

(** What one turn does to the stored result. *)
Lemma one_delivery_validation (o : Observer) (event_type : string)
    (data : EventData) (w : World) :
  let w1 := snd (one_delivery o event_type data w) in
  content (document w1) = content (document w)
  /\ if String.eqb event_type "content_changed" && listening o
     then exists r,
            last_validation_result (document w1) = Some r
            /\ is_valid r = verdict (content (document w))
     else last_validation_result (document w1)
          = last_validation_result (document w).
Proof.
  cbn zeta. unfold one_delivery, listening, Observer.update,
    ValidatorObserver.update.
  destruct o as [nm en [v | fails]]; cbn [enabled kind name].
  - destruct en; cbn [andb]; [|rewrite andb_false_r; now split].
    destruct (String.eqb event_type "content_changed"); cbn [andb];
      [|run_py; now split].
    destruct (auto_validate v); [|run_py; now split].
    run_py.
    match goal with
    | |- context [ValidatorObserver.validate v ?w0] =>
        destruct (validate_verdict v w0) as (r & v' & w1 & -> & Hl & Hr & Hu)
    end.
    cbn [fst snd content document] in *. split; [apply Hu | eauto].
  - rewrite !andb_false_r. destruct en; run_py; [|now split].
    destruct (fails event_type data (content (document w))); now split.
Qed.

(** What the whole loop does to it. *)
Lemma deliver_validation (os : list Observer) (event_type : string)
    (data : EventData) (w : World) :
  let w' := snd (Subject.deliver os event_type data w) in
  content (document w') = content (document w)
  /\ if String.eqb event_type "content_changed" && existsb listening os
     then exists r,
            last_validation_result (document w') = Some r
            /\ is_valid r = verdict (content (document w))
     else last_validation_result (document w')
          = last_validation_result (document w).
Proof.
  revert w. induction os as [|o rest IH]; intros w; cbn zeta.
  - rewrite andb_false_r. now split.
  - destruct (deliver_cons o rest event_type data w) as (o' & w1 & Hone & ->).
    pose proof (one_delivery_validation o event_type data w) as H1.
    cbn zeta in H1. rewrite Hone in H1. cbn [snd] in H1.
    destruct H1 as (Hc1 & H1).
    destruct (IH w1) as (Hc2 & H2). rewrite Hc2, Hc1 in *.
    split; [reflexivity|]. cbn [existsb].
    destruct (String.eqb event_type "content_changed"); cbn [andb] in *;
      [|congruence].
    destruct (existsb listening rest).
    + rewrite orb_true_r. exact H2.
    + rewrite orb_false_r. destruct (listening o); [|congruence].
      destruct H1 as (r & Hl & Hr). exists r. split; congruence.
Qed.

Lemma notify_validation (event_type : string) (data : EventData) (w : World) :
  let w' := snd (Subject.notify event_type data w) in
  if String.eqb event_type "content_changed"
     && existsb listening (observers (document w))
  then exists r,
         last_validation_result (document w') = Some r
         /\ is_valid r = verdict (content (document w))
  else last_validation_result (document w')
       = last_validation_result (document w).
Proof.
  destruct (deliver_validation (observers (document w)) event_type data w)
    as (_ & Hd).
  cbn zeta in *. unfold Subject.notify. run_py.
  destruct (Subject.deliver (observers (document w)) event_type data w)
    as [[os'|e] w1]; cbn [fst snd] in *; exact Hd.
Qed.

(** [load_from_file] and [mark_as_saved] leave the stored validation result
    as it was, whatever observers are attached: a validator reacts to
    [content_changed] only, so after a load the stored result is still the
    one of the content before.  A [reset] that returns leaves none. *)
Theorem loading_keeps_the_validation_result (w : World) (path : string)
    (new_content : Text) (saved_path : option string) :
  last_validation_result
    (document (snd (Document.load_from_file path new_content w)))
  = last_validation_result (document w)
  /\ last_validation_result
       (document (snd (Document.mark_as_saved saved_path w)))
     = last_validation_result (document w)
  /\ (fst (Document.reset w) = Returned tt ->
      last_validation_result (document (snd (Document.reset w))) = None).
Proof.
  split; [|split].
  - unfold Document.load_from_file. run_py.
    match goal with
    | |- context [Subject.notify ?ev ?data ?w1] =>
        pose proof (notify_validation ev data w1) as Hn
    end.
    cbn in Hn. exact Hn.
  - unfold Document.mark_as_saved. run_py.
    match goal with
    | |- context [Subject.notify ?ev ?data ?w1] =>
        pose proof (notify_validation ev data w1) as Hn
    end.
    cbn in Hn. exact Hn.
  - unfold Document.reset. run_py.
    destruct (negb (Document.is_new (document w))); [discriminate|].
    intros _.
    match goal with
    | |- context [Subject.notify ?ev ?data ?w1] =>
        pose proof (notify_validation ev data w1) as Hn
    end.
    cbn in Hn. exact Hn.
Qed.

Lemma notified_validation (data : EventData) (w0 w1 : World) :
  observers (document w1) = observers (document w0) ->
  existsb listening (observers (document w0)) = true ->
  let w' := snd (Subject.notify "content_changed" data w1) in
  exists r,
    last_validation_result (document w') = Some r
    /\ is_valid r = verdict (content (document w')).
Proof.
  intros Ho Hl. cbn zeta.
  pose proof (notify_validation "content_changed" data w1) as Hn.
  cbn zeta in Hn. rewrite Ho, Hl in Hn. cbn in Hn.
  destruct Hn as (r & Hr & Hv). exists r. split; [exact Hr|].
  destruct (notify_spec "content_changed" data w1) as (_ & Hu & _).
  now rewrite (same_content Hu).
Qed.

(** When an enabled validator with automatic validation is attached, every
    [insert], [delete], [set_content] and [clear] that notifies and returns
    leaves a stored validation result that is the verdict on the content as
    it is after the edit. *)
Theorem edits_are_validated (call : Call) (w : World) :
  edits_content call = true ->
  notifies call = true ->
  existsb listening (observers (document w)) = true ->
  fst (perform call w) = Returned tt ->
  let w' := snd (perform call w) in
  exists r,
    last_validation_result (document w') = Some r
    /\ is_valid r = verdict (content (document w')).
Proof.
  intros Hedit Hnotify Hl.
  destruct call; try discriminate; cbn [notifies] in Hnotify; subst notify;
    cbn [perform]; unfold Document.clear.
  - unfold Document.set_content. run_py.
    destruct (read_only (document w)); [discriminate|]. intros _.
    now apply (notified_validation _ w).
  - unfold Document.insert. run_py.
    destruct (read_only (document w)); [discriminate|].
    destruct ((position <? 0) || (position >? len (content (document w))));
      [discriminate|].
    intros _. now apply (notified_validation _ w).
  - unfold Document.delete. run_py.
    destruct (read_only (document w)); [discriminate|].
    destruct ((start <? 0) || (end_ >? len (content (document w)))
              || (start >? end_)); [discriminate|].
    intros _. now apply (notified_validation _ w).
  - unfold Document.set_content. run_py.
    destruct (read_only (document w)); [discriminate|]. intros _.
    now apply (notified_validation _ w).
Qed.

(** ** The editor *)

(** [Editor.replace_text] returns [True] exactly when the document is not
    read-only and the range is valid, and the content is then the old one
    with the range replaced by the new text; otherwise it returns [False]
    and only a message has been printed. *)
Theorem replace_text_replaces_the_range (w : World) (start end_ : Z)
    (new_text : Text) :
  let c := content (document w) in
  exists (ok : bool) (w' : World),
    Editor.replace_text start end_ new_text w = (Returned ok, w')
    /\ if ok
       then read_only (document w) = false /\ valid_range c start end_
            /\ content (document w')
               = slice_to c start ++ new_text ++ slice_from c end_
       else (read_only (document w) = true \/ ~ valid_range c start end_)
            /\ only_printed w w'.
Proof.
  intros c. unfold Editor.replace_text, Editor.delete_text,
    Editor.insert_text, DeleteCommand.new, InsertCommand.new.
  set (dd := (_ ++ _)%string). set (di := (_ ++ _)%string).
  unfold bind at 1.
  destruct (manager_execute_run (DeleteCommand dd false start end_ []) w)
    as (ok & c1 & w1 & Hc & Ha & ->).
  cbn [Command.execute] in Hc.
  destruct (delete_execute_spec dd false start end_ [] w)
    as (ok' & cap & w1' & Heq & Hs).
  rewrite Heq in Hc. injection Hc as <- <- <-.
  destruct ok'; cbn [negb].
  - destruct Hs as (Hro & Hv & -> & Hed). fold c in Hv, Hed.
    set (w2 := with_command_manager _ w1').
    destruct (manager_execute_run (InsertCommand di false start new_text) w2)
      as (ok & c2 & w3 & Hc & _ & ->).
    cbn [Command.execute] in Hc.
    destruct (insert_execute_spec di false start new_text w2)
      as (ok' & w3' & Heq' & Hs').
    rewrite Heq' in Hc. injection Hc as <- <- <-.
    cbn zeta in Hs'.
    change (content (document w2)) with (content (document w1')) in Hs'.
    change (read_only (document w2)) with (read_only (document w1')) in Hs'.
    rewrite (ed_content Hed), (ed_read_only Hed) in Hs'.
    destruct Hv as (Hv1 & Hv2).
    destruct ok'.
    + exists true. eexists. split; [reflexivity|].
      split; [exact Hro|]. split; [now split|].
      destruct Hs' as (_ & _ & Hed'). cbn. rewrite (ed_content Hed').
      now rewrite slice_to_deleted, slice_from_deleted.
    + destruct Hs' as ([Hro' | Hnv] & _); [congruence|].
      exfalso. apply Hnv. unfold valid_position.
      rewrite len_deleted by assumption. lia.
  - exists false, w1'. split; [reflexivity | exact Hs].
Qed.

Lemma index_before_last {A} (before : list A) (x y : A) :
  index (before ++ [x; y]) (len before) = Some x.
Proof.
  unfold index. rewrite len_app. pose proof (len_nonneg before). cbn.
  destruct (Z.ltb_spec (len before) (- (len before + 2))); [lia|].
  destruct (Z.leb_spec (len before + 2) (len before)); [lia|]. cbn [orb].
  destruct (Z.ltb_spec (len before) 0); [lia|].
  unfold len. rewrite Nat2Z.id, nth_error_app2, Nat.sub_diag by lia.
  reflexivity.
Qed.

(** A [replace_text] that returned [True] is two entries of the history,
    the delete and then the insert: when the history has room for two, the
    first [undo()] takes the new text out again, and the second puts the
    old text back, so that the content is what it was. *)
Theorem replace_text_takes_two_undos (w w' : World) (start end_ : Z)
    (new_text : Text) :
  2 <= max_history (command_manager w) ->
  history_invariant (command_manager w) ->
  Editor.replace_text start end_ new_text w = (Returned true, w') ->
  let c := content (document w) in
  exists w1 w2,
    CommandManager.undo w' = (Returned true, w1)
    /\ content (document w1) = slice_to c start ++ slice_from c end_
    /\ CommandManager.undo w1 = (Returned true, w2)
    /\ content (document w2) = c.
Proof.
  intros Hmax Hinv Hrep c.
  unfold Editor.replace_text, Editor.delete_text, Editor.insert_text in Hrep.
  unfold bind in Hrep.
  destruct (CommandManager.execute (DeleteCommand.new start end_) w)
    as [[[]|e] wd] eqn:Hdel; cbn [negb] in Hrep; try discriminate.
  destruct (manager_execute_true _ _ _ Hdel) as (D' & wD & HexD & HaD & ->).
  destruct (manager_execute_true _ _ _ Hrep) as (I' & wI & HexI & HaI & ->).
  set (m := command_manager w) in *.
  destruct (pushed_last m D') as (before & Hh1 & Hi1); [lia | assumption |].
  destruct (pushed_invariant m D') as (Hinv1 & Hm1); [lia | assumption |].
  set (m1 := pushed m D') in *.
  cbn [command_manager with_command_manager] in *.
  pose proof (len_nonneg before) as Hb.
  assert (Hm2 : pushed m1 I'
                = mkCommandManager
                    (skipn (Z.to_nat (evicted (len before) (max_history m)))
                       before ++ [D'; I'])
                    (len before + 1 - evicted (len before) (max_history m))
                    (max_history m)).
  { rewrite pushed_general by (assumption || lia). cbn zeta.
    rewrite Hh1, Hi1, Hm1.
    replace (Z.to_nat (len before + 1)) with (List.length (before ++ [D']))
      by (rewrite length_app; unfold len; cbn; lia).
    rewrite firstn_all, <- app_assoc. cbn [app].
    rewrite skipn_app.
    replace (Z.to_nat (evicted (len before) (max_history m))
             - List.length before)%nat with 0%nat
      by (unfold evicted, len; lia).
    reflexivity. }
  set (k := evicted (len before) (max_history m)) in *.
  assert (Hk : 0 <= k <= len before) by (unfold k, evicted; lia).
  set (kept := skipn (Z.to_nat k) before) in *.
  assert (Hkept : len kept = len before - k)
    by (apply len_skipn_in_range; lia).
  rewrite Hm2 in *.
  set (m2 := mkCommandManager (kept ++ [D'; I']) (len before + 1 - k)
               (max_history m)) in *.
  assert (Hcur : current_index m2 = len (kept ++ [D'])).
  { cbn. rewrite len_app, Hkept. cbn. lia. }
  destruct (manager_undo_executed (InsertCommand.new start new_text) I'
              (with_command_manager m1 wD) wI (with_command_manager m2 wI)
              HexI eq_refl)
    as (I'' & w1 & _ & Hc1 & Ha1 & HU1).
  { cbn. apply HaI. }
  { unfold CommandManager.can_undo. cbn. apply Z.geb_le. lia. }
  { change (command_manager (with_command_manager m2 wI)) with m2.
    rewrite Hcur.
    replace (history m2) with ((kept ++ [D']) ++ [I'])
      by (cbn; now rewrite <- app_assoc).
    apply index_last. }
  change (command_manager (with_command_manager m2 wI)) with m2 in HU1.
  exists (with_command_manager
            (revisited m2 (current_index m2) I'' (current_index m2 - 1)) w1).
  set (m3 := revisited m2 (current_index m2) I'' (current_index m2 - 1)) in *.
  assert (Hh3 : history m3 = kept ++ [D'; I'']).
  { unfold m3, revisited. cbn [history]. rewrite Hcur.
    change (history m2) with (kept ++ [D'; I']).
    replace (kept ++ [D'; I']) with ((kept ++ [D']) ++ [I'])
      by (now rewrite <- app_assoc).
    rewrite list_set_last. now rewrite <- app_assoc. }
  assert (Hi3 : current_index m3 = len kept).
  { unfold m3, revisited. cbn [current_index]. rewrite Hcur, len_app. cbn. lia. }
  pose proof (len_nonneg kept) as Hkn.
  cbn [document with_command_manager] in Hc1.
  destruct (manager_undo_executed (DeleteCommand.new start end_) D' w wD
              (with_command_manager m3 w1) HexD)
    as (D'' & w2 & _ & Hc2 & _ & HU2).
  { cbn. exact Hc1. }
  { cbn. rewrite (adv_read_only Ha1). cbn. rewrite (adv_read_only HaI).
    cbn. apply HaD. }
  { unfold CommandManager.can_undo. cbn [command_manager with_command_manager].
    rewrite Hi3. apply Z.geb_le. lia. }
  { cbn [command_manager with_command_manager]. rewrite Hh3, Hi3.
    apply index_before_last. }
  eexists. split; [exact HU1|]. split; [|split; [exact HU2 | exact Hc2]].
  cbn [document with_command_manager]. rewrite Hc1.
  cbn [Command.execute DeleteCommand.new] in HexD.
  match type of HexD with
  | DeleteCommand.execute ?d _ _ _ _ _ = _ =>
      destruct (delete_execute_spec d false start end_ [] w)
        as (ok & cap & wD' & Heq & Hs)
  end.
  rewrite Heq in HexD. injection HexD as -> _ ->.
  destruct Hs as (_ & _ & _ & Hed). exact (ed_content Hed).
Qed.

(** ** Each side keeps to itself *)

(** The calls on the document never touch the history, and the calls on the
    history never change the read-only flag or the path of the document:
    [execute], [undo] and [redo] reach the document only through [insert],
    [delete] and [get_text], and [set_content], which the formatting of the
    editor goes through, leaves no entry to undo. *)
Theorem calls_keep_to_their_side (call : Call) (w : World) :
  let w' := snd (perform call w) in
  if on_history call
  then read_only (document w') = read_only (document w)
       /\ filepath (document w') = filepath (document w)
  else command_manager w' = command_manager w.
Proof.
  cbn zeta. destruct call; cbn [perform on_history]; unfold Document.clear.
  - pose proof (set_content_spec content0 notify w) as Hs.
    destruct (Document.set_content content0 notify w) as [[[]|e] w']; cbn.
    + destruct Hs as (_ & Hed). apply Hed.
    + now destruct Hs as (-> & _).
  - pose proof (insert_spec position text notify w) as Hs. cbn zeta in Hs.
    destruct (Document.insert position text notify w) as [[[]|e] w']; cbn.
    + destruct Hs as (_ & _ & Hed). apply Hed.
    + now destruct Hs as (-> & _).
  - pose proof (delete_spec start end_ notify w) as Hs. cbn zeta in Hs.
    destruct (Document.delete start end_ notify w) as [[[]|e] w']; cbn.
    + destruct Hs as (_ & _ & Hed). apply Hed.
    + now destruct Hs as (-> & _).
  - run_py. pose proof (get_text_spec start end_ w) as Hs. cbn zeta in Hs.
    destruct (Document.get_text start end_ w) as [[t|e] w']; cbn;
      now destruct Hs as (-> & _).
  - apply (load_from_file_spec filepath0 content0 w).
  - apply (mark_as_saved_spec filepath0 w).
  - reflexivity.
  - pose proof (set_content_spec [] notify w) as Hs.
    destruct (Document.set_content [] notify w) as [[[]|e] w']; cbn.
    + destruct Hs as (_ & Hed). apply Hed.
    + now destruct Hs as (-> & _).
  - pose proof (reset_spec w) as Hs.
    destruct (Document.reset w) as [[[]|e] w']; cbn.
    + apply Hs.
    + now destruct Hs as (-> & _).
  - run_py.
    destruct (manager_execute_run command w) as (ok & c' & w1 & _ & Ha & ->).
    destruct ok; cbn; split; apply Ha.
  - run_py. unfold CommandManager.undo. run_py.
    destruct (CommandManager.can_undo (command_manager w)) eqn:Hcan;
      cbn [negb]; [|now split].
    destruct (index _ _) as [c|] eqn:Hidx; [|now split].
    destruct (manager_undo_run w c Hcan Hidx) as (ok & c' & w1 & Hun & Ha & _).
    rewrite Hun. destruct ok; cbn; split; apply Ha.
  - run_py. unfold CommandManager.redo. run_py.
    destruct (CommandManager.can_redo (command_manager w)) eqn:Hcan;
      cbn [negb]; [|now split].
    destruct (index _ _) as [c|] eqn:Hidx; [|now split].
    destruct (manager_redo_run w c Hcan Hidx) as (ok & c' & w1 & Hex & Ha & _).
    rewrite Hex. destruct ok; cbn; split; apply Ha.
  - now split.
Qed.

(** On a history that satisfies its invariant, the counts that
    [get_history_info] reports are consistent: both are between 0 and the
    total, they add up to the total, which is at most the maximum, and
    [can_undo] and [can_redo] say whether each count is positive. *)
Theorem history_info_is_consistent (m : CommandManager) :
  history_invariant m ->
  let info := CommandManager.get_history_info m in
  0 <= CommandManager.undo_count info
  /\ 0 <= CommandManager.redo_count info
  /\ CommandManager.undo_count info + CommandManager.redo_count info
     = CommandManager.total_commands info
  /\ CommandManager.total_commands info <= CommandManager.info_max_history info
  /\ CommandManager.info_can_undo info = (0 <? CommandManager.undo_count info)
  /\ CommandManager.info_can_redo info = (0 <? CommandManager.redo_count info).
Proof.
  intros ((Hlo & Hhi) & Hlen). cbn.
  unfold CommandManager.can_undo, CommandManager.can_redo.
  repeat split; lia.
Qed.

(** ** A delete command that fails *)

(** [DeleteCommand.execute] on a read-only document with a valid range
    returns [False] and leaves the document alone, but it has already stored
    the text of the range as [deleted_text]; with a range that is not
    valid it returns [False] and keeps the [deleted_text] it had. *)
Theorem failed_delete_command_state (d : string) (x : bool) (start end_ : Z)
    (deleted_text : Text) (w : World) :
  read_only (document w) = true \/ ~ valid_range (content (document w)) start end_ ->
  exists w',
    DeleteCommand.execute d x start end_ deleted_text w
    = (Returned
         (false,
          DeleteCommand d x start end_
            (if (start <? 0) || (end_ >? len (content (document w)))
                || (start >? end_)
             then deleted_text
             else slice (content (document w)) start end_)),
       w')
    /\ only_printed w w'.
Proof.
  intros Hfail. unfold DeleteCommand.execute. run_py.
  pose proof (get_text_spec start end_ w) as Hg. cbn zeta in Hg.
  unfold Document.get_text in *. run_py.
  destruct ((start <? 0) || (end_ >? len (content (document w)))
            || (start >? end_)) eqn:Hguard.
  - eexists. split; [reflexivity | now constructor].
  - destruct Hg as (_ & Hv & _).
    destruct Hfail as [Hro | Hbad]; [|now elim Hbad].
    unfold Document.delete. run_py. rewrite Hro.
    eexists. split; [reflexivity | now constructor].
Qed.

(** ** The status observer *)

Lemma slice_from_negative {A} (l : list A) (k : Z) :
  1 <= k <= len l ->
  slice_from l (- k) = skipn (Z.to_nat (len l - k)) l.
Proof.
  intros Hk. unfold slice_from, clamp_index.
  destruct (Z.ltb_spec (- k) 0); [|lia]. f_equal. lia.
Qed.


(** [get_recent_events(count)] returns the last [min(count, n)] of the [n]
    events for a count of at least 1; for a count of 0 it returns all of
    them, since [-0] is the start of the list. *)
Theorem recent_events_are_the_last (s : StatusObserver.t) (count : Z) :
  0 <= count ->
  let h := StatusObserver.event_history s in
  let recent := StatusObserver.get_recent_events s count in
  if count =? 0 then recent = h
  else len recent = Z.min count (len h)
       /\ exists older, h = older ++ recent.
Proof.
  intros Hcount h recent. subst recent. unfold StatusObserver.get_recent_events.
  fold h. pose proof (len_nonneg h) as Hh.
  destruct (Z.eqb_spec count 0) as [-> | Hpos].
  - destruct h; reflexivity.
  - destruct h as [|e h'] eqn:Hh'; cbn [truthy].
    + cbn. split; [lia | now exists []].
    + rewrite <- Hh' in *. clear Hh'.
      destruct (Z.le_gt_cases count (len h)).
      * rewrite slice_from_negative by lia. split.
        -- rewrite len_skipn_in_range by lia. lia.
        -- exists (firstn (Z.to_nat (len h - count)) h).
           now rewrite firstn_skipn.
      * unfold slice_from, clamp_index.
        destruct (Z.ltb_spec (- count) 0); [|lia].
        rewrite Z.max_l by lia. cbn [Z.to_nat skipn].
        split; [lia | now exists []].
Qed.

(** ** The token cache *)

Lemma key_eqb_eq (a b : TokenFactory.Key) :
  TokenFactory.key_eqb a b = true <-> a = b.
Proof.
  unfold TokenFactory.key_eqb. destruct a as [a1 a2], b as [b1 b2]. cbn.
  rewrite andb_true_iff, !String.eqb_eq. split; [intros []|intros [=]];
    now subst.
Qed.

Lemma lookup_none (d : list (TokenFactory.Key * Token.t))
    (key : TokenFactory.Key) :
  TokenFactory.lookup d key = None <-> ~ In key (List.map fst d).
Proof.
  induction d as [|[k tok] d IH]; cbn; [tauto|].
  destruct (TokenFactory.key_eqb k key) eqn:Hk.
  - apply key_eqb_eq in Hk. split; [discriminate | tauto].
  - assert (k <> key) by (intros Heq; apply key_eqb_eq in Heq; congruence).
    tauto.
Qed.

Lemma lookup_some (d : list (TokenFactory.Key * Token.t))
    (key : TokenFactory.Key) (tok : Token.t) :
  TokenFactory.lookup d key = Some tok -> In (key, tok) d.
Proof.
  induction d as [|[k tok'] d IH]; cbn; [discriminate|].
  destruct (TokenFactory.key_eqb k key) eqn:Hk.
  - apply key_eqb_eq in Hk. intros [= ->]. left. now subst.
  - auto.
Qed.

Lemma lookup_app_some (d d' : list (TokenFactory.Key * Token.t))
    (key : TokenFactory.Key) (tok : Token.t) :
  TokenFactory.lookup d key = Some tok ->
  TokenFactory.lookup (d ++ d') key = Some tok.
Proof.
  induction d as [|[k tok'] d IH]; cbn; [discriminate|].
  destruct (TokenFactory.key_eqb k key); auto.
Qed.

Lemma lookup_app_new (d : list (TokenFactory.Key * Token.t))
    (key : TokenFactory.Key) (tok : Token.t) :
  TokenFactory.lookup d key = None ->
  TokenFactory.lookup (d ++ [(key, tok)]) key = Some tok.
Proof.
  induction d as [|[k tok'] d IH]; cbn.
  - intros _. assert (Hk : TokenFactory.key_eqb key key = true)
      by now apply key_eqb_eq.
    now rewrite Hk.
  - destruct (TokenFactory.key_eqb k key); [discriminate | auto].
Qed.

Lemma new_cache_invariant : cache_invariant TokenFactory.new.
Proof.
  unfold cache_invariant.
  change (TokenFactory.tokens TokenFactory.new)
    with (List.map (fun k => (k, Token.mk (fst k) (snd k)))
            TokenFactory.common_tokens).
  rewrite List.map_map. cbn [fst]. rewrite List.map_id.
  split; [|split; [|split; [|split]]].
  - unfold TokenFactory.common_tokens.
    repeat (constructor; [cbn; intuition discriminate|]). constructor.
  - apply Forall_forall. intros entry Hin. apply in_map_iff in Hin.
    destruct Hin as ([k1 k2] & <- & _). reflexivity.
  - apply incl_refl.
  - reflexivity.
  - vm_compute. discriminate.
Qed.

Lemma get_token_cache_invariant (f : TokenFactory.t) (value token_type : string) :
  cache_invariant f ->
  cache_invariant (snd (TokenFactory.get_token f value token_type)).
Proof.
  intros (Hnd & Hkeys & Hcommon & Hlen & Hre). unfold TokenFactory.get_token.
  destruct (TokenFactory.lookup (TokenFactory.tokens f) (value, token_type))
    eqn:Hl; cbn [snd]; unfold cache_invariant;
    cbn [TokenFactory.tokens TokenFactory.created TokenFactory.reused].
  - repeat split; trivial; lia.
  - apply lookup_none in Hl. rewrite List.map_app. cbn [List.map fst].
    split; [|split; [|split; [|split]]].
    + apply NoDup_app; [assumption | repeat constructor; intros [] | ].
      intros k Hin [<- | []]. contradiction.
    + apply Forall_app. split; [assumption | now repeat constructor].
    + apply incl_appl. exact Hcommon.
    + rewrite len_app. cbn. lia.
    + exact Hre.
Qed.

(** A factory just made satisfies the invariant of the cache, and
    [get_token] and [clear_cache] keep it: no key is ever cached twice,
    every cached token has the value and the type it is cached under, the
    common tokens are always there, and [get_token_count()] is the number
    of tokens created. *)
Theorem token_cache_invariant (f : TokenFactory.t) (value token_type : string) :
  f = TokenFactory.new \/ cache_invariant f ->
  cache_invariant f
  /\ cache_invariant (snd (TokenFactory.get_token f value token_type))
  /\ cache_invariant (TokenFactory.clear_cache f)
  /\ TokenFactory.get_token_count f = TokenFactory.created f.
Proof.
  intros Hstart.
  assert (Hinv : cache_invariant f).
  { destruct Hstart as [-> | Hinv]; [apply new_cache_invariant | exact Hinv]. }
  split; [exact Hinv|]. split; [now apply get_token_cache_invariant|].
  split; [apply new_cache_invariant|]. apply Hinv.
Qed.

Lemma cached_token_shape (f : TokenFactory.t) (value token_type : string)
    (tok : Token.t) :
  cache_invariant f ->
  TokenFactory.lookup (TokenFactory.tokens f) (value, token_type) = Some tok ->
  tok = Token.mk value token_type.
Proof.
  intros (_ & Hkeys & _) Hl. apply lookup_some in Hl.
  rewrite Forall_forall in Hkeys. specialize (Hkeys _ Hl). cbn in Hkeys.
  destruct tok. cbn in Hkeys. congruence.
Qed.

(** [get_token] returns the token of the value and type asked for; asking
    again returns the same token and only counts a reuse; the cache grows
    by at most one token and no token cached before is lost or replaced. *)
Theorem token_is_cached (f : TokenFactory.t) (value token_type : string) :
  cache_invariant f ->
  let token := fst (TokenFactory.get_token f value token_type) in
  let f1 := snd (TokenFactory.get_token f value token_type) in
  token = Token.mk value token_type
  /\ TokenFactory.get_token f1 value token_type
     = (token,
        TokenFactory.mk (TokenFactory.tokens f1) (TokenFactory.created f1)
          (TokenFactory.reused f1 + 1))
  /\ TokenFactory.get_token_count f <= TokenFactory.get_token_count f1
     <= TokenFactory.get_token_count f + 1
  /\ forall key token',
       TokenFactory.lookup (TokenFactory.tokens f) key = Some token' ->
       TokenFactory.lookup (TokenFactory.tokens f1) key = Some token'.
Proof.
  intros Hinv. cbn zeta. unfold TokenFactory.get_token_count.
  destruct (TokenFactory.lookup (TokenFactory.tokens f) (value, token_type))
    as [tok|] eqn:Hl.
  - assert (Hget : TokenFactory.get_token f value token_type
                   = (tok, TokenFactory.mk (TokenFactory.tokens f)
                             (TokenFactory.created f)
                             (TokenFactory.reused f + 1)))
      by (unfold TokenFactory.get_token; now rewrite Hl).
    rewrite Hget. cbn [fst snd TokenFactory.tokens TokenFactory.created
                         TokenFactory.reused].
    split; [now apply (cached_token_shape f)|].
    split; [|split; [lia | trivial]].
    unfold TokenFactory.get_token.
    cbn [TokenFactory.tokens TokenFactory.created TokenFactory.reused].
    now rewrite Hl.
  - assert (Hget : TokenFactory.get_token f value token_type
                   = (Token.mk value token_type,
                      TokenFactory.mk
                        (TokenFactory.tokens f
                           ++ [((value, token_type),
                                Token.mk value token_type)])
                        (TokenFactory.created f + 1)
                        (TokenFactory.reused f)))
      by (unfold TokenFactory.get_token; now rewrite Hl).
    rewrite Hget. cbn [fst snd TokenFactory.tokens TokenFactory.created
                         TokenFactory.reused].
    split; [reflexivity|]. split; [|split].
    + unfold TokenFactory.get_token.
      cbn [TokenFactory.tokens TokenFactory.created TokenFactory.reused].
      now rewrite (lookup_app_new _ _ _ Hl).
    + rewrite len_app. cbn. lia.
    + intros key token'. apply lookup_app_some.
Qed.

(** A request for one of the ten common tokens never creates a token: it
    is a reuse, whatever has been asked of the factory before. *)
Theorem common_token_is_reused (f : TokenFactory.t) (value token_type : string) :
  cache_invariant f ->
  In (value, token_type) TokenFactory.common_tokens ->
  TokenFactory.get_token f value token_type
  = (Token.mk value token_type,
     TokenFactory.mk (TokenFactory.tokens f) (TokenFactory.created f)
       (TokenFactory.reused f + 1)).
Proof.
  intros Hinv Hin. pose proof Hinv as (_ & _ & Hcommon & _).
  unfold TokenFactory.get_token.
  destruct (TokenFactory.lookup (TokenFactory.tokens f) (value, token_type))
    as [tok|] eqn:Hl.
  - now rewrite (cached_token_shape f value token_type tok Hinv Hl).
  - apply lookup_none in Hl. elim Hl. now apply Hcommon.
Qed.

(** With the colours of [Config.SYNTAX_COLORS], [get_color] gives every
    token one of the configured colours and never falls back to black; a
    token whose type is not one of the six known types gets the colour of
    the braces. *)
Theorem every_token_has_a_configured_color (token : Token.t) :
  let color := Token.get_color token SyntaxColors.SYNTAX_COLORS in
  In color (List.map snd SyntaxColors.SYNTAX_COLORS)
  /\ color <> "#000000"%string
  /\ (~ In (Token.token_type token) (List.map fst Token.type_to_color_key) ->
      color = "#383A42"%string).
Proof.
  cbn zeta. unfold Token.get_color, Token.type_to_color_key.
  cbn [Token.dict_get List.map fst].
  repeat match goal with
         | |- context [String.eqb ?a (Token.token_type token)] =>
             destruct (String.eqb_spec a (Token.token_type token))
         end;
    (split; [cbn; tauto|]; split; [cbn; discriminate|]);
    intros Hnot; try reflexivity; elim Hnot; cbn; tauto.
Qed.

(** ** Undo and redo on a read-only document *)






End Further.

(** * The properties on the sample worlds *)

#[local] Existing Instance sample_collaborators.

(** Inserting [a] into [{}] at position 1 and undoing it, with an observer
    that raises at every notification. *)
Lemma insert_then_undo_on_braces :
  exists c' w1 c'' w2,
    Command.execute (InsertCommand.new 1 (text_of_string "a")) braces_world
    = (Returned (true, c'), w1)
    /\ content (document w1)
       = slice_to (content (document braces_world)) 1 ++ text_of_string "a"
           ++ slice_from (content (document braces_world)) 1
    /\ Command.undo c' w1 = (Returned (true, c''), w2)
    /\ content (document w2) = content (document braces_world).
Proof.
  apply (@insert_then_undo_restores_content sample_collaborators braces_world
           1 (text_of_string "a")).
  - reflexivity.
  - cbn. lia.
Defined.

(** Deleting the first character of [{}] and undoing it. *)
Lemma delete_then_undo_on_braces :
  exists d w1 c'' w2,
    Command.execute (DeleteCommand.new 0 1) braces_world
    = (Returned (true, DeleteCommand d true 0 1 (text_of_string "{")), w1)
    /\ content (document w1) = text_of_string "}"
    /\ Command.undo (DeleteCommand d true 0 1 (text_of_string "{")) w1
       = (Returned (true, c''), w2)
    /\ content (document w2)
       = slice_to (content (document w1)) 0 ++ text_of_string "{"
           ++ slice_from (content (document w1)) 0
    /\ content (document w2) = text_of_string "{}".
Proof.
  apply (@delete_then_undo_restores_content sample_collaborators braces_world
           0 1).
  - reflexivity.
  - cbn. lia.
Defined.

(** [A], [B], [C], [undo], [D] with a maximum history of 3. *)
Lemma redo_branch_discarded_on_sample :
  Returned true = Returned true
  /\ current_index (command_manager (after_undo (Some 3))) = 1
  /\ CommandManager.redo (after_D (Some 3))
     = (Returned false, after_D (Some 3))
  /\ exists A' B' D',
       history (command_manager (after_D (Some 3))) = [A'; B'; D']
       /\ current_index (command_manager (after_D (Some 3))) = 2
       /\ fst (Command.execute command_A (sample_world [] false [] (Some 3)))
          = Returned (true, A')
       /\ fst (Command.execute command_B (after_A (Some 3)))
          = Returned (true, B')
       /\ fst (Command.execute command_D (after_undo (Some 3)))
          = Returned (true, D').
Proof.
  apply (@redo_branch_discarded sample_collaborators (Some 3)
           command_A command_B command_C command_D
           (sample_world [] false [] (Some 3)) (after_A (Some 3))
           (after_B (Some 3)) (after_C (Some 3)) (after_undo (Some 3))
           (after_D (Some 3)) (Returned true)).
  - reflexivity.
  - cbn. lia.
  - vm_compute. reflexivity.
  - vm_compute. reflexivity.
  - vm_compute. reflexivity.
  - vm_compute. reflexivity.
  - vm_compute. reflexivity.
Defined.

(** [A], [B], [C], [undo], [D] with a maximum history of 2: every call
    returns [True], the cursor is at [C] and then at [D], but [A] has been
    evicted, and the history is [B, D], not [A, B, D]. *)
Lemma redo_branch_on_history_of_two :
  max_history (command_manager (sample_world [] false [] (Some 2))) = 2
  /\ fst (CommandManager.execute command_A
            (sample_world [] false [] (Some 2))) = Returned true
  /\ fst (CommandManager.execute command_B (after_A (Some 2)))
     = Returned true
  /\ fst (CommandManager.execute command_C (after_B (Some 2)))
     = Returned true
  /\ CommandManager.get_undo_description (after_C (Some 2))
     = (Returned (Some (Command.description command_C)), after_C (Some 2))
  /\ fst (CommandManager.undo (after_C (Some 2))) = Returned true
  /\ fst (CommandManager.execute command_D (after_undo (Some 2)))
     = Returned true
  /\ CommandManager.redo (after_D (Some 2))
     = (Returned false, after_D (Some 2))
  /\ history (command_manager (after_D (Some 2)))
     = [InsertCommand (Command.description command_B) true 1
          (text_of_string "a");
        InsertCommand (Command.description command_D) true 2
          (text_of_string "b")]
  /\ current_index (command_manager (after_D (Some 2))) = 1
  /\ len (history (command_manager (after_D (Some 2)))) <> 3.
Proof. vm_compute. repeat split; try reflexivity. discriminate. Qed.

(** [A], [B], [C] with a maximum history of 2, and the undos that follow. *)
Lemma bounded_history_on_sample :
  (exists B' C',
      history (command_manager (after_C (Some 2))) = [B'; C']
      /\ current_index (command_manager (after_C (Some 2))) = 1
      /\ fst (Command.execute command_B (after_A (Some 2)))
         = Returned (true, B')
      /\ fst (Command.execute command_C (after_B (Some 2)))
         = Returned (true, C'))
  /\ exists w4 w5,
       CommandManager.undo (after_C (Some 2)) = (Returned true, w4)
       /\ content (document w4) = content (document (after_B (Some 2)))
       /\ CommandManager.can_undo (command_manager w4) = true
       /\ CommandManager.undo w4 = (Returned true, w5)
       /\ content (document w5) = content (document (after_A (Some 2)))
       /\ CommandManager.can_undo (command_manager w5) = false
       /\ CommandManager.undo w5 = (Returned false, w5).
Proof.
  apply (@bounded_history_two_undos sample_collaborators
           command_A command_B command_C
           (sample_world [] false [] (Some 2)) (after_A (Some 2))
           (after_B (Some 2)) (after_C (Some 2))).
  - reflexivity.
  - vm_compute. reflexivity.
  - vm_compute. reflexivity.
  - vm_compute. reflexivity.
Defined.

(** After [A], [B], [C] with a maximum history of 2 and one successful
    [undo], [can_undo()] is still true, and a second [undo] succeeds: the
    history does not run dry after a single undo. *)
Lemma bounded_history_second_undo :
  List.map Command.description (history (command_manager (after_C (Some 2))))
  = [Command.description command_B; Command.description command_C]
  /\ current_index (command_manager (after_C (Some 2))) = 1
  /\ CommandManager.undo (after_C (Some 2))
     = (Returned true, after_undo (Some 2))
  /\ content (document (after_undo (Some 2)))
     = content (document (after_B (Some 2)))
  /\ CommandManager.can_undo (command_manager (after_undo (Some 2))) = true
  /\ fst (CommandManager.undo (after_undo (Some 2))) = Returned true.
Proof. vm_compute. repeat split; reflexivity. Qed.

(** A reversed range and a negative position on [{}]. *)
Lemma out_of_range_on_braces :
  Document.get_text 5 3 braces_world
  = (Raised (ValueError (Document.invalid_range 5 3)), braces_world)
  /\ Document.delete 5 3 true braces_world
     = (Raised (ValueError (Document.invalid_range 5 3)), braces_world)
  /\ Document.insert (-1) (text_of_string "x") true braces_world
     = (Raised (ValueError (Document.invalid_position (-1))), braces_world).
Proof.
  pose proof (@out_of_range_calls_change_nothing sample_collaborators
                braces_world) as Hw.
  cbv zeta in Hw. destruct Hw as (Hget & Hdel & Hins).
  split; [|split].
  - apply Hget. cbn. lia.
  - apply (Hdel 5 3 true). cbn. lia.
  - apply (Hins (-1) (text_of_string "x") true). cbn. lia.
Defined.

(** On a read-only document [delete(5, 3)] raises the [RuntimeError] of
    the read-only check, not the range error. *)
Lemma reversed_range_on_locked :
  read_only (document locked_world) = true
  /\ Document.delete 5 3 true locked_world
     = (Raised (RuntimeError Document.delete_read_only_message), locked_world)
  /\ is_ValueError (RuntimeError Document.delete_read_only_message) = false.
Proof. vm_compute. repeat split; reflexivity. Qed.

(** The four guarded mutators on the read-only document. *)
Lemma edits_on_locked :
  (forall position text notify,
      Document.insert position text notify locked_world
      = (Raised (RuntimeError Document.read_only_message), locked_world))
  /\ (forall start end_ notify,
        Document.delete start end_ notify locked_world
        = (Raised (RuntimeError Document.delete_read_only_message),
           locked_world))
  /\ (forall content notify,
        Document.set_content content notify locked_world
        = (Raised (RuntimeError Document.read_only_message), locked_world))
  /\ (forall notify,
        Document.clear notify locked_world
        = (Raised (RuntimeError Document.read_only_message), locked_world)).
Proof.
  apply (@read_only_rejects_edits sample_collaborators locked_world).
  reflexivity.
Defined.

(** The two messages are not the same string. *)
Example delete_message_differs :
  String.eqb Document.delete_read_only_message Document.read_only_message
  = false.
Proof. vm_compute. reflexivity. Qed.

(** [load_from_file], [mark_as_saved] and [reset] on the read-only
    document: each returns, calls the observer, and the first and the last
    replace the content. *)
Lemma unguarded_calls_on_locked :
  read_only (document locked_world) = true
  /\ content (document locked_world) = text_of_string "abc"
  /\ fst (Document.load_from_file "f" (text_of_string "x") locked_world)
     = Returned tt
  /\ content
       (document
          (snd (Document.load_from_file "f" (text_of_string "x")
                  locked_world)))
     = text_of_string "x"
  /\ List.map to
       (deliveries
          (snd (Document.load_from_file "f" (text_of_string "x")
                  locked_world)))
     = [quiet_observer]
  /\ fst (Document.mark_as_saved (Some "f"%string) locked_world) = Returned tt
  /\ filepath (document (snd (Document.mark_as_saved (Some "f"%string)
                               locked_world)))
     = Some "f"%string
  /\ fst (Document.reset locked_world) = Returned tt
  /\ content (document (snd (Document.reset locked_world))) = [].
Proof. vm_compute. repeat split; reflexivity. Qed.

(** A run of calls without [reset] on [{}]: an insert, a rejected delete, a
    load, an execute, an undo, a redo. *)
Lemma edit_count_on_braces :
  let calls :=
    [CallInsert 1 (text_of_string "a") true; CallDelete 5 3 true;
     CallLoadFromFile "f" (text_of_string "[]");
     CallExecute command_B; CallUndo; CallRedo] in
  edit_count (document braces_world)
  <= edit_count (document (perform_all calls braces_world))
  /\ (forall call,
        edits_content call = true ->
        fst (perform call braces_world) = Returned tt ->
        edit_count (document (snd (perform call braces_world)))
        = edit_count (document braces_world) + 1)
  /\ (fst (Document.reset braces_world) = Returned tt ->
      edit_count (document (snd (Document.reset braces_world))) = 0).
Proof.
  intros calls.
  apply (@edit_count_without_reset sample_collaborators calls braces_world).
  reflexivity.
Defined.

(** [reset] takes the counter from 1 back to 0, and [load_from_file]
    replaces the content without moving the counter. *)
Lemma reset_lowers_edit_count :
  edit_count (document edited_once) = 1
  /\ fst (Document.reset edited_once) = Returned tt
  /\ edit_count (document (snd (Document.reset edited_once))) = 0
  /\ fst (Document.load_from_file "f" (text_of_string "y") edited_once)
     = Returned tt
  /\ content
       (document
          (snd (Document.load_from_file "f" (text_of_string "y")
                  edited_once)))
     = text_of_string "y"
  /\ edit_count
       (document
          (snd (Document.load_from_file "f" (text_of_string "y")
                  edited_once)))
     = 1.
Proof. vm_compute. repeat split; reflexivity. Qed.

(** An insert into [{}] while the first observer raises: the insert
    returns, the command reports [True], and the quiet observer is called
    after the failing one; the disabled one is not. *)
Lemma failing_observer_on_braces :
  fst (Document.insert 1 (text_of_string "a") true braces_world) = Returned tt
  /\ List.map to
       (deliveries
          (snd (Document.insert 1 (text_of_string "a") true braces_world)))
     = [failing_observer; quiet_observer]
  /\ exists c',
       fst (Command.execute (InsertCommand.new 1 (text_of_string "a"))
              braces_world)
       = Returned (true, c').
Proof.
  destruct (@every_enabled_observer_notified sample_collaborators
              braces_world "content_changed" EmptyData) as (_ & Hedit).
  destruct (Hedit eq_refl) as (Hinsert & _).
  destruct (Hinsert 1 (text_of_string "a")) as (Hret & Hdel & Hcmd).
  - cbn. lia.
  - split; [exact Hret|]. split; [|exact Hcmd].
    rewrite Hdel. reflexivity.
Defined.



(** The invariant on the full history [B, C] of maximum 2, and after each
    of the four calls from there. *)
Lemma history_invariant_on_sample :
  history_invariant (command_manager (after_C (Some 2)))
  /\ (forall c,
        keeps_history_invariant (after_C (Some 2))
          (snd (CommandManager.execute c (after_C (Some 2)))))
  /\ keeps_history_invariant (after_C (Some 2))
       (snd (CommandManager.undo (after_C (Some 2))))
  /\ keeps_history_invariant (after_C (Some 2))
       (snd (CommandManager.redo (after_C (Some 2))))
  /\ keeps_history_invariant (after_C (Some 2))
       (snd (CommandManager.clear_history (after_C (Some 2)))).
Proof.
  apply (@history_invariant_preserved sample_collaborators (after_C (Some 2))).
  - vm_compute. discriminate.
  - right. vm_compute. repeat split; discriminate.
Defined.

(** The scenario of an editing session: from the empty content, insert
    [{}], insert [a] at position 1, undo, redo. *)
Example editing_session :
  let w1 := after_A None in
  let w2 := after_B None in
  let w3 := snd (CommandManager.undo w2) in
  let w4 := snd (CommandManager.redo w3) in
  content (document w1) = text_of_string "{}"
  /\ content (document w2) = text_of_string "{a}"
  /\ fst (CommandManager.undo w2) = Returned true
  /\ content (document w3) = text_of_string "{}"
  /\ fst (CommandManager.redo w3) = Returned true
  /\ content (document w4) = text_of_string "{a}"
  /\ edit_count (document w4) = 4
  /\ CommandManager.can_redo (command_manager w4) = false.
Proof. vm_compute. repeat split; reflexivity. Qed.

(** * The further properties on the sample worlds *)

(** The composite of [A] and [B] on the empty document, executed and
    undone. *)
Lemma composite_AB_undone :
  Command.executed composite_AB_executed = true
  /\ exists c2 w2,
       Command.undo composite_AB_executed
         (snd (Command.execute composite_AB (sample_world [] false [] None)))
       = (Returned (true, c2), w2)
       /\ Command.executed c2 = false
       /\ content (document w2) = [].
Proof.
  apply (@composite_undo_restores_content sample_collaborators "AB" false
           [command_A; command_B] (sample_world [] false [] None)).
  vm_compute. reflexivity.
Defined.

(** The composite with the failing child: [A] stays executed, [B] is not
    run. *)
Lemma composite_failing_stops :
  exists done failed rest done' failed' w1,
    [command_A; command_out_of_range; command_B] = done ++ failed :: rest
    /\ snd (returned (false, composite_failing)
              (Command.execute composite_failing
                 (sample_world [] false [] None)))
       = CompositeCommand "A?B" false (done' ++ failed' :: rest)
    /\ execute_all done (sample_world [] false [] None)
       = (Returned (true, done'), w1)
    /\ Command.execute failed w1
       = (Returned (false, failed'),
          snd (Command.execute composite_failing
                 (sample_world [] false [] None))).
Proof.
  apply (@composite_failure_is_not_rolled_back sample_collaborators "A?B"
           false [command_A; command_out_of_range; command_B]
           (sample_world [] false [] None)).
  vm_compute. reflexivity.
Defined.

(** The delete [C] through the manager, on the read-only document [abc]:
    nothing is recorded and the world is only printed to, but the command
    now holds the [a] of its range. *)
Lemma locked_delete_is_not_recorded :
  let w' := snd (CommandManager.execute command_C locked_world) in
  command_manager w' = command_manager locked_world
  /\ exists c',
       Command.execute command_C locked_world = (Returned (false, c'), w')
       /\ (is_simple command_C = true ->
           only_printed locked_world w'
           /\ c' = DeleteCommand (Command.description command_C) false 0 1
                     (text_of_string "a")).
Proof.
  apply (@failed_command_is_not_recorded sample_collaborators command_C
           locked_world).
  vm_compute. reflexivity.
Defined.

(** [C] executed on the history [A, B] of maximum 2. *)
Lemma after_C_is_next_to_undo :
  CommandManager.can_undo (command_manager (after_C (Some 2))) = true
  /\ CommandManager.can_redo (command_manager (after_C (Some 2))) = false
  /\ CommandManager.get_undo_description (after_C (Some 2))
     = (Returned (Some (Command.description command_C)), after_C (Some 2))
  /\ CommandManager.get_redo_description (after_C (Some 2))
     = (Returned None, after_C (Some 2)).
Proof.
  apply (@executed_command_is_next_to_undo sample_collaborators command_C
           (after_B (Some 2)) (after_C (Some 2))).
  - vm_compute. discriminate.
  - vm_compute. repeat split; discriminate.
  - vm_compute. reflexivity.
Defined.



(** [a] inserted in [{}] and read back. *)
Lemma inserted_a_is_read_back :
  let w' := snd (Document.insert 1 (text_of_string "a") true braces_world) in
  Document.size (document w') = 3
  /\ Document.get_text 1 2 w' = (Returned (text_of_string "a"), w')
  /\ Document.get_text 0 1 w' = (Returned (text_of_string "{"), w')
  /\ Document.get_text 2 3 w' = (Returned (text_of_string "}"), w').
Proof.
  destruct (@inserted_text_is_read_back sample_collaborators braces_world 1
              (text_of_string "a") true)
    as (_ & Hsize & Hmid & Hbefore & Hafter).
  - reflexivity.
  - cbn. lia.
  - cbn zeta in *. split; [exact Hsize|]. split; [exact Hmid|].
    split; [exact Hbefore | exact Hafter].
Defined.

(** The first character of [{}] deleted. *)
Lemma deleted_brace_is_gone :
  let w' := snd (Document.delete 0 1 true braces_world) in
  Document.size (document w') = 1
  /\ Document.get_text 0 0 w' = (Returned [], w')
  /\ Document.get_text 0 1 w' = (Returned (text_of_string "}"), w').
Proof.
  destruct (@delete_removes_only_the_range sample_collaborators braces_world
              0 1 true)
    as (_ & Hsize & Hbefore & Hafter).
  - reflexivity.
  - cbn. lia.
  - cbn zeta in *. split; [exact Hsize|]. split; [exact Hbefore | exact Hafter].
Defined.

(** A load into the document with a validator attached, after an edit has
    been validated. *)
Lemma load_keeps_result_on_sample :
  let w := snd (Document.insert 1 (text_of_string "a") true validated_world) in
  last_validation_result
    (document (snd (Document.load_from_file "f" (text_of_string "x") w)))
  = last_validation_result (document w)
  /\ last_validation_result (document w) <> None.
Proof.
  intros w. split.
  - apply (@loading_keeps_the_validation_result sample_collaborators w "f"
             (text_of_string "x") None).
  - vm_compute. discriminate.
Defined.

(** An insert into the document with a validator attached. *)
Lemma insert_is_validated_on_sample :
  let w' := snd (perform (CallInsert 1 (text_of_string "a") true)
                   validated_world) in
  exists r,
    last_validation_result (document w') = Some r
    /\ is_valid r = verdict (content (document w')).
Proof.
  apply (@edits_are_validated sample_collaborators
           (CallInsert 1 (text_of_string "a") true) validated_world);
    reflexivity.
Defined.

(** The replacement of the first character of [{}], undone twice. *)
Lemma replace_undone_on_sample :
  exists w1 w2,
    CommandManager.undo after_replace = (Returned true, w1)
    /\ content (document w1) = text_of_string "}"
    /\ CommandManager.undo w1 = (Returned true, w2)
    /\ content (document w2) = text_of_string "{}".
Proof.
  apply (@replace_text_takes_two_undos sample_collaborators
           small_history_world after_replace 0 1 (text_of_string "[")).
  - vm_compute. discriminate.
  - vm_compute. repeat split; discriminate.
  - vm_compute. reflexivity.
Defined.

(** The counts of the history [B, C]. *)
Lemma history_info_on_sample :
  let info :=
    CommandManager.get_history_info (command_manager (after_C (Some 2))) in
  0 <= CommandManager.undo_count info
  /\ 0 <= CommandManager.redo_count info
  /\ CommandManager.undo_count info + CommandManager.redo_count info
     = CommandManager.total_commands info
  /\ CommandManager.total_commands info <= CommandManager.info_max_history info
  /\ CommandManager.info_can_undo info = (0 <? CommandManager.undo_count info)
  /\ CommandManager.info_can_redo info = (0 <? CommandManager.redo_count info).
Proof.
  apply (history_info_is_consistent (command_manager (after_C (Some 2)))).
  vm_compute. repeat split; discriminate.
Defined.

(** A delete command on the read-only document. *)
Lemma delete_on_locked_captures :
  exists w',
    DeleteCommand.execute "d" false 0 1 [] locked_world
    = (Returned (false, DeleteCommand "d" false 0 1 (text_of_string "a")), w')
    /\ only_printed locked_world w'.
Proof.
  apply (@failed_delete_command_state sample_collaborators "d" false 0 1 []
           locked_world).
  left. reflexivity.
Defined.


Lemma recent_event_on_sample :
  len (StatusObserver.get_recent_events status_after_insert 5) = 1
  /\ exists older,
       StatusObserver.event_history status_after_insert
       = older ++ StatusObserver.get_recent_events status_after_insert 5.
Proof.
  apply (recent_events_are_the_last status_after_insert 5). lia.
Defined.

(** The factory as made, asked for a new token and for a brace. *)
Lemma new_factory_invariant :
  cache_invariant TokenFactory.new
  /\ cache_invariant (snd (TokenFactory.get_token TokenFactory.new "x" "key"))
  /\ cache_invariant (TokenFactory.clear_cache TokenFactory.new)
  /\ TokenFactory.get_token_count TokenFactory.new
     = TokenFactory.created TokenFactory.new.
Proof.
  apply (token_cache_invariant TokenFactory.new "x" "key"). now left.
Defined.

Lemma new_token_is_cached :
  let f1 := snd (TokenFactory.get_token TokenFactory.new "x" "key") in
  fst (TokenFactory.get_token TokenFactory.new "x" "key") = Token.mk "x" "key"
  /\ fst (TokenFactory.get_token f1 "x" "key") = Token.mk "x" "key"
  /\ TokenFactory.get_token_count f1 = 11.
Proof.
  destruct (token_is_cached TokenFactory.new "x" "key") as (Htok & Hagain & _).
  - apply new_cache_invariant.
  - cbn zeta in *. split; [exact Htok|]. split; [|reflexivity].
    rewrite Hagain. exact Htok.
Defined.

Lemma brace_is_reused :
  TokenFactory.get_token TokenFactory.new "{" "symbol"
  = (Token.mk "{" "symbol",
     TokenFactory.mk (TokenFactory.tokens TokenFactory.new) 10 1).
Proof.
  apply (common_token_is_reused TokenFactory.new "{" "symbol").
  - apply new_cache_invariant.
  - left. reflexivity.
Defined.

(** A token of a type that is not known. *)
Lemma unknown_type_gets_brace_color :
  Token.get_color (Token.mk "x" "comment") SyntaxColors.SYNTAX_COLORS
  = "#383A42"%string.
Proof.
  destruct (every_token_has_a_configured_color (Token.mk "x" "comment"))
    as (_ & _ & Hbrace).
  apply Hbrace. cbn. intuition discriminate.
Defined.


(** The status messages of the seven kinds of event. *)
Example status_messages :
  StatusObserver.message_for "content_changed"
    (InsertData 0 (text_of_string "ab") 2)
  = "Вставлено 2 символів"%string
  /\ StatusObserver.message_for "content_changed"
       (DeleteData 0 1 (text_of_string "a") 1)
     = "Видалено 1 символів"%string
  /\ StatusObserver.message_for "content_changed" (FullReplace [] [])
     = "Документ змінено"%string
  /\ StatusObserver.message_for "saved" (SavedData None 1)
     = "Збережено: None"%string
  /\ StatusObserver.message_for "loaded" (LoadedData "a.json" 2)
     = "Завантажено: a.json (2 символів)"%string
  /\ StatusObserver.message_for "reset" EmptyData
     = "Документ скинуто"%string
  /\ StatusObserver.message_for "closed" EmptyData
     = "Подія: closed"%string.
Proof. vm_compute. repeat split; reflexivity. Qed.
